(** * discord-vscode: icon resolution ([src/util.ts])

    A shallow embedding of [util.ts]: the repository icon resolver
    [getRepositoryIconAsync], the file icon resolver [resolveFileIconAsync],
    the command helper [execute] and the accessor [getGit] of the git
    integration, with the properties the specification states about them.

    Conventions.
    - A JavaScript string is a [string]: a sequence of code units, here the
      code units below 256.
    - A promise is represented by the way it settles ([Settled]); an [async]
      function is a computation over the module-level variable [git] and the
      log of calls made to the outside ([Async]).  Every awaited promise is
      taken to settle.  Calls of [getGit] may overlap at its [await]
      ([runSchedule]); the resolvers read [git] once, before their own
      [await], and are given as uninterrupted calls.
    - Libraries and tables that [util.ts] imports ([glob-to-regexp], [RegExp],
      [path.basename], [KNOWN_EXTENSIONS], [KNOWN_LANGUAGES]) are parameters. *)

From Stdlib Require Import String Ascii List Bool Arith ZArith Lia.
From Stdlib Require Import Sorting.Sorted Sorting.Permutation.
Import ListNotations.

Local Open Scope list_scope.
Local Open Scope string_scope.

(** ** JavaScript string primitives used by [util.ts] *)

Module JsString.

(** [s.slice(n)] *)
Fixpoint drop (n : nat) (s : string) : string :=
  match n, s with
  | O, _ => s
  | S _, EmptyString => EmptyString
  | S n', String _ s' => drop n' s'
  end.

(** [s.startsWith(p)] *)
Definition startsWith (s p : string) : bool := String.prefix p s.

(** [s.endsWith(p)] *)
Definition endsWith (s p : string) : bool :=
  Nat.leb (String.length p) (String.length s)
  && String.eqb (drop (String.length s - String.length p) s) p.

(** [s.replace(pat, rep)] for a string pattern: the leftmost occurrence of
    [pat] is replaced, the rest of [s] is kept.  None of the replacement
    strings of [util.ts] contains a [$]. *)
Fixpoint replace (pat rep s : string) : string :=
  if String.prefix pat s then rep ++ drop (String.length pat) s
  else match s with
       | EmptyString => EmptyString
       | String c s' => String c (replace pat rep s')
       end.

(** White space and line terminators of ECMAScript, among the code units
    below 256: TAB, LF, VT, FF, CR, SPACE and NBSP. *)
Definition isWhiteSpace (c : ascii) : bool :=
  let n := nat_of_ascii c in
  Nat.eqb n 9 || Nat.eqb n 10 || Nat.eqb n 11 || Nat.eqb n 12
  || Nat.eqb n 13 || Nat.eqb n 32 || Nat.eqb n 160.

(** A line terminator, which the [.] of a regular expression refuses. *)
Definition isLineTerminator (c : ascii) : bool :=
  let n := nat_of_ascii c in Nat.eqb n 10 || Nat.eqb n 13.

Fixpoint trimStart (s : string) : string :=
  match s with
  | EmptyString => EmptyString
  | String c s' => if isWhiteSpace c then trimStart s' else s
  end.

Fixpoint trimEnd (s : string) : string :=
  match s with
  | EmptyString => EmptyString
  | String c s' =>
      match trimEnd s' with
      | EmptyString => if isWhiteSpace c then EmptyString else String c EmptyString
      | t => String c t
      end
  end.

(** [s.trim()] *)
Definition trim (s : string) : string := trimEnd (trimStart s).

(** [s.split(sep)] for a separator of one code unit; the result is never
    empty: [''.split(sep)] is [['']]. *)
Fixpoint split (sep : ascii) (s : string) : list string :=
  match s with
  | EmptyString => [EmptyString]
  | String c s' =>
      if Ascii.eqb c sep then EmptyString :: split sep s'
      else match split sep s' with
           | h :: t => String c h :: t
           | [] => [String c EmptyString]
           end
  end.

(** Does the string contain the code unit? *)
Fixpoint contains (c : ascii) (s : string) : bool :=
  match s with
  | EmptyString => false
  | String d s' => Ascii.eqb d c || contains c s'
  end.

(** Does every code unit satisfy [p]? *)
Fixpoint all (p : ascii -> bool) (s : string) : bool :=
  match s with
  | EmptyString => true
  | String c s' => p c && all p s'
  end.

(** The part of [s] after its first [c], when there is one. *)
Fixpoint after (c : ascii) (s : string) : option string :=
  match s with
  | EmptyString => None
  | String d s' => if Ascii.eqb d c then Some s' else after c s'
  end.

(** The parts of [s] before and after its last [c], when there is one. *)
Fixpoint splitLast (c : ascii) (s : string) : option (string * string) :=
  match s with
  | EmptyString => None
  | String d s' =>
      match splitLast c s' with
      | Some (a, b) => Some (String d a, b)
      | None => if Ascii.eqb d c then Some (EmptyString, s') else None
      end
  end.

(** JavaScript truthiness of a string. *)
Definition truthy (s : string) : bool := negb (String.eqb s EmptyString).

(** [s.includes(pat)] *)
Fixpoint includes (s pat : string) : bool :=
  String.prefix pat s
  || match s with
     | EmptyString => false
     | String _ s' => includes s' pat
     end.

End JsString.

(** Truthiness of a possibly undefined string. *)
Definition truthyOpt (o : option string) : bool :=
  match o with
  | Some s => JsString.truthy s
  | None => false
  end.

(** ** Promises and the module state *)

(** Why a promise was rejected: [reject()] without a value, [reject] with the
    error stream of a command, or an exception thrown inside an [async]
    function (given by its text). *)
Inductive Reason : Type :=
| NoValue
| ErrorStream (standardError : string)
| Thrown (error : string).

(** How a promise settles. *)
Inductive Settled (A : Type) : Type :=
| Resolved (value : A)
| Rejected (reason : Reason).

Arguments Resolved {A} value.
Arguments Rejected {A} reason.

(** The declarations of [./git] that [util.ts] reads. *)
Record Uri : Type := { path : string }.

Record Ref : Type := { name : option string; commit : option string }.

Record Remote : Type := { fetchUrl : option string }.

Record RepositoryState : Type := { HEAD : option Ref; remotes : list Remote }.

Module Repository.
Record t : Type := { rootUri : Uri; state : RepositoryState }.
End Repository.

Module API.
Record t : Type := { state : string; repositories : list Repository.t }.
End API.

(** The module-level variable [let git: API | null | undefined]. *)
Inductive Handle : Type :=
| Undefined
| Null
| Loaded (api : API.t).

Inductive LogLevel : Type := Trace | Debug | Info | Warn | Error.

(** A call that leaves the module: to the logger, to the extension host or
    to [child_process]. *)
Inductive Effect : Type :=
| Log (level : LogLevel) (message : string)
| GetExtension (id : string)
| Activate
| GetAPI (version : nat)
| Exec (command cwd : string).

(** The state of the running extension: the variable [git] and the calls
    made so far, oldest first. *)
Record Process : Type := { git : Handle; journal : list Effect }.

(** An [async] function: it reads and writes the process state and settles. *)
Definition Async (A : Type) : Type := Process -> Settled A * Process.

Definition ret {A : Type} (a : A) : Async A := fun p => (Resolved a, p).

Definition reject {A : Type} (r : Reason) : Async A := fun p => (Rejected r, p).

Definition bind {A B : Type} (c : Async A) (k : A -> Async B) : Async B :=
  fun p =>
    match c p with
    | (Resolved a, p') => k a p'
    | (Rejected r, p') => (Rejected r, p')
    end.

(** [try { c } catch (error) { h error }] *)
Definition tryCatch {A : Type} (c : Async A) (h : Reason -> Async A) : Async A :=
  fun p =>
    match c p with
    | (Resolved a, p') => (Resolved a, p')
    | (Rejected r, p') => h r p'
    end.

(** [await] of a promise that settles as [s], or a call that returns or throws. *)
Definition await {A : Type} (s : Settled A) : Async A := fun p => (s, p).

Definition perform (e : Effect) : Async unit :=
  fun p => (Resolved tt, {| git := git p; journal := (journal p ++ [e])%list |}).

Definition readGit : Async Handle := fun p => (Resolved (git p), p).

Definition writeGit (h : Handle) : Async unit :=
  fun p => (Resolved tt, {| git := h; journal := journal p |}).

Declare Scope async_scope.
Delimit Scope async_scope with async.

Notation "x <- c ;; k" := (bind c (fun x => k))
  (at level 61, c at next level, right associativity) : async_scope.
Notation "c ;; k" := (bind c (fun _ => k))
  (at level 61, right associativity) : async_scope.

(** ** What [util.ts] imports and what surrounds it *)

(** An entry of the icon tables: a plain icon key or a record with one. *)
Inductive IconDescriptor : Type :=
| IconKey (key : string)
| IconRecord (image : string).

Record LanguageEntry : Type := { language : string; image : IconDescriptor }.

(** The imports of [util.ts] that are not under [src/].
    - [GlobToRegExp glob] is [GlobToRegExp(glob, {extended: true, globstar:
      true})]: [None] when it throws, else the [test] method of the result.
    - [RegExp source flags] is [new RegExp(source, flags)]: [None] when the
      constructor throws, else the [test] method of a fresh object.
    - [KNOWN_EXTENSIONS] lists the table in the order of [Object.keys]. *)
Class Imports : Type := {
  GlobToRegExp : string -> option (string -> bool);
  RegExp : string -> string -> option (string -> bool);
  basename : string -> string;
  KNOWN_EXTENSIONS : list (string * IconDescriptor);
  KNOWN_LANGUAGES : list LanguageEntry
}.

Record WorkspaceFolder : Type := { uri : Uri }.

(** An extension as [extensions.getExtension] hands it out: [activate] is the
    way the promise of [activate()] settles, [getAPI v] what
    [exports.getAPI(v)] returns or throws (after activation, when this call
    activates it). *)
Record Extension : Type := {
  isActive : bool;
  activate : Settled unit;
  getAPI : nat -> Settled API.t
}.

(** What [child_process.exec] passes to its callback. *)
Record ExecReport : Type := {
  error : option string;
  standardOutput : string;
  standardError : string
}.

(** The editor and the machine at the time of a call. *)
Record World : Type := {
  workspaceFolders : option (list WorkspaceFolder);
  bigImageFilePaths : list string;
  exec : string -> string -> ExecReport;
  getExtension : string -> option Extension
}.

Record TextDocument : Type := { fileName : string; languageId : string }.

(** ** [Array.prototype] methods *)

Module JsArray.

(** [xs.find(p)] *)
Definition find {A : Type} (p : A -> bool) (xs : list A) : option A :=
  List.find p xs.

(** [xs.some(p)] *)
Definition some {A : Type} (p : A -> bool) (xs : list A) : bool :=
  List.existsb p xs.

(** [xs.sort(compareFn)]: the sort is stable, and [a] stays before [b] when
    [compareFn(a, b) <= 0]. *)
Fixpoint insert {A : Type} (compareFn : A -> A -> Z) (a : A) (xs : list A) : list A :=
  match xs with
  | [] => [a]
  | b :: xs' =>
      if (compareFn a b <=? 0)%Z then a :: b :: xs'
      else b :: insert compareFn a xs'
  end.

Fixpoint sort {A : Type} (compareFn : A -> A -> Z) (xs : list A) : list A :=
  match xs with
  | [] => []
  | a :: xs' => insert compareFn a (sort compareFn xs')
  end.

End JsArray.

(** ** [util.ts] *)

Section Util.

Context {imports : Imports}.

Local Open Scope async_scope.

(** [execute]: the callback given to [exec]. *)
Definition executeCallback (r : ExecReport) : Settled string :=
  match error r with
  | Some _ => Rejected NoValue
  | None =>
      if JsString.truthy (standardError r)
      then Rejected (ErrorStream (standardError r))
      else Resolved (standardOutput r)
  end.

Definition execute (w : World) (command cwd : string) : Async string :=
  perform (Exec command cwd) ;;
  await (executeCallback (exec w command cwd)).

(** [git || git === null] *)
Definition cached (h : Handle) : bool :=
  match h with
  | Undefined => false
  | Null | Loaded _ => true
  end.

(** The text of a caught value inside a template literal. *)
Definition reasonText (r : Reason) : string :=
  match r with
  | NoValue => "undefined"
  | ErrorStream e => e
  | Thrown e => e
  end.

Definition getGit (w : World) : Async Handle :=
  g <- readGit ;;
  if cached g then ret g
  else
    tryCatch
      (perform (Log Debug "Loading git extension") ;;
       perform (GetExtension "vscode.git") ;;
       let gitExtension := getExtension w "vscode.git" in
       match gitExtension with
       | Some e =>
           (if negb (isActive e)
            then perform (Log Trace "Git extension not activated, activating...") ;;
                 perform Activate ;;
                 await (activate e)
            else ret tt) ;;
           perform (GetAPI 1) ;;
           api <- await (getAPI e 1) ;;
           writeGit (Loaded api)
       | None =>
           perform (Log Trace "Git extension not activated, activating...") ;;
           writeGit Undefined
       end)
      (fun error =>
         writeGit Null ;;
         perform (Log Error ("Failed to load git extension, is git installed?; "
                             ++ reasonText error))) ;;
    readGit.

(** Calls of [getGit] one after the other, each in the world of its time:
    every call settles before the next one starts. *)
Fixpoint getGitCalls (ws : list World) (p : Process) : list (Settled Handle) * Process :=
  match ws with
  | [] => ([], p)
  | w :: ws' =>
      let (r, p') := getGit w p in
      let (rs, p'') := getGitCalls ws' p' in
      (r :: rs, p'')
  end.

(** *** Calls of [getGit] that overlap

    [getGit] gives the control back at [await gitExtension?.activate()]
    (line 168) and nowhere else: a call that finds [git] cached, or the
    extension active, runs to its end at once; any other call stops there,
    and other calls may start or resume before it goes on. *)

(** A call stopped at the [await]: it holds the extension it found. *)
Inductive Suspended : Type :=
| AwaitingActivation (gitExtension : option Extension).

(** [git = gitExtension.exports.getAPI(1)] for an extension that was found. *)
Definition getGitExports (e : Extension) : Async unit :=
  perform (GetAPI 1) ;;
  api <- await (getAPI e 1) ;;
  writeGit (Loaded api).

(** The [catch] block. *)
Definition getGitCatch (error : Reason) : Async unit :=
  writeGit Null ;;
  perform (Log Error ("Failed to load git extension, is git installed?; "
                      ++ reasonText error)).

(** The call up to its end or up to the [await]. *)
Definition getGitBegin (w : World) (p : Process)
  : (Settled Handle + Suspended) * Process :=
  if cached (git p) then (inl (Resolved (git p)), p)
  else
    let p1 := snd ((perform (Log Debug "Loading git extension") ;;
                    perform (GetExtension "vscode.git")) p) in
    match getExtension w "vscode.git" with
    | Some e =>
        if negb (isActive e) then
          (inr (AwaitingActivation (Some e)),
           snd ((perform (Log Trace "Git extension not activated, activating...") ;;
                 perform Activate) p1))
        else
          let (r, p2) := (tryCatch (getGitExports e) getGitCatch ;; readGit) p1 in
          (inl r, p2)
    | None =>
        (inr (AwaitingActivation None),
         snd (perform (Log Trace "Git extension not activated, activating...") p1))
    end.

(** The call from the [await] to its end. *)
Definition getGitResume (s : Suspended) : Async Handle :=
  match s with
  | AwaitingActivation (Some e) =>
      tryCatch (await (activate e) ;; getGitExports e) getGitCatch ;;
      readGit
  | AwaitingActivation None =>
      writeGit Undefined ;;
      readGit
  end.





(** [repo => workspace.workspaceFolders?.some(folder => repo.rootUri.path === folder.uri.path)] *)
Definition inWorkspace (w : World) (repo : Repository.t) : bool :=
  match workspaceFolders w with
  | Some folders =>
      JsArray.some
        (fun folder => String.eqb (path (Repository.rootUri repo)) (path (uri folder)))
        folders
  | None => false
  end.

(** [repo?.state.HEAD?.name ?? repo?.state.HEAD?.commit] *)
Definition branchNameOf (repo : Repository.t) : option string :=
  match HEAD (Repository.state repo) with
  | Some head =>
      match name head with
      | Some n => Some n
      | None => commit head
      end
  | None => None
  end.

(** [repo?.state.remotes[0]?.fetchUrl] *)
Definition fetchUrlOf (repo : Repository.t) : option string :=
  match remotes (Repository.state repo) with
  | remote :: _ => fetchUrl remote
  | [] => None
  end.

(** The first [replace] of the [else] branch (line 99): a regular expression
    of three groups, the text [https://], then code units other than [@] up
    to an [@], then code units other than line terminators up to the end of
    the string; the match is replaced by the first and third groups.  A match
    starts at the leftmost [https://] that is followed by an [@] with no line
    terminator after it: the second group stops at the first [@], the third
    runs to the end of the string. *)
Definition credentialsAt (s : string) : option string :=
  if JsString.startsWith s "https://" then
    match JsString.after "@" (JsString.drop 8 s) with
    | Some rest =>
        if JsString.all (fun c => negb (JsString.isLineTerminator c)) rest
        then Some ("https://" ++ rest)
        else None
    | None => None
    end
  else None.

Fixpoint stripCredentials (s : string) : string :=
  match credentialsAt s with
  | Some r => r
  | None =>
      match s with
      | EmptyString => EmptyString
      | String c s' => String c (stripCredentials s')
      end
  end.

(** [.replace('.git', '')], the last step of both branches. *)
Definition removeDotGit (url : string) : string := JsString.replace ".git" "" url.

(** The [if]/[else] that rewrites [url] (lines 91 to 101). *)
Definition normalizeUrl (url : string) : string :=
  if JsString.startsWith url "git@" || JsString.startsWith url "ssh://" then
    removeDotGit
      (JsString.replace "git@" "https://"
         (JsString.replace ":" "/"
            (JsString.replace "ssh://" "" url)))
  else
    removeDotGit (stripCredentials url).

(** [a.split('/').length] *)
Definition segments (file : string) : nat := List.length (JsString.split "/" file).

(** [a] has at most as many path segments as [b]. *)
Definition shallower (a b : string) : Prop := (segments a <= segments b)%nat.

(** [file] passes [test] and has [depth] path segments. *)
Definition atLevel (test : string -> bool) (depth : nat) (file : string) : bool :=
  test file && Nat.eqb (segments file) depth.

(** [(a, b) => a.split('/').length - b.split('/').length] *)
Definition byDepth (a b : string) : Z := (Z.of_nat (segments a) - Z.of_nat (segments b))%Z.

(** [(await execute(...)).trim().split('\n')], then sorted in place. *)
Definition trackedFilesOf (output : string) : list string :=
  JsArray.sort byDepth (JsString.split "010" (JsString.trim output)).

(** [getConfig().bigImageFilePaths.map(filePath => GlobToRegExp(filePath, ...))] *)
Fixpoint compileGlobs (filePaths : list string) : Settled (list (string -> bool)) :=
  match filePaths with
  | [] => Resolved []
  | filePath :: rest =>
      match GlobToRegExp filePath with
      | None => Rejected (Thrown "SyntaxError")
      | Some regex =>
          match compileGlobs rest with
          | Resolved regexes => Resolved (regex :: regexes)
          | Rejected r => Rejected r
          end
      end
  end.

(** The value of the [return] inside the loop. *)
Definition iconUrl (url branchName file : string) : string :=
  JsString.replace "https://" "https://raw." url ++ "/" ++ branchName ++ "/" ++ file.

(** The [for (const file of trackedFiles)] loop. *)
Fixpoint scan (regexes : list (string -> bool)) (url branchName : string)
    (trackedFiles : list string) : option string :=
  match trackedFiles with
  | [] => None
  | file :: rest =>
      match JsArray.find (fun regex => regex file) regexes with
      | None => scan regexes url branchName rest
      | Some _ => Some (iconUrl url branchName file)
      end
  end.

(** The repository has no reference: no [HEAD], or a [HEAD] without name
    and without commit. *)
Definition noReference (repo : Repository.t) : Prop :=
  HEAD (Repository.state repo) = None
  \/ exists head, HEAD (Repository.state repo) = Some head
                  /\ name head = None /\ commit head = None.

(** No remote of the repository has a fetch URL. *)
Definition noFetchUrl (repo : Repository.t) : Prop :=
  forall remote, In remote (remotes (Repository.state repo)) -> fetchUrl remote = None.

(** [git.repositories.find(repo => ...)]: the repository of the workspace. *)
Definition selectRepository (w : World) (api : API.t) : option Repository.t :=
  JsArray.find (inWorkspace w) (API.repositories api).

(** [file] passes the test of one of the compiled globs. *)
Definition matchedBy (filePaths : list string) (file : string) : bool :=
  JsArray.some
    (fun filePath =>
       match GlobToRegExp filePath with
       | Some regex => regex file
       | None => false
       end)
    filePaths.

Definition getRepositoryIconAsync (w : World) : Async (option string) :=
  g <- readGit ;;
  match g with
  | Loaded api =>
      if negb (String.eqb (API.state api) "initialized")
         || Nat.eqb (List.length (API.repositories api)) 0
         || match workspaceFolders w with Some _ => false | None => true end
      then ret None
      else
        let repo := selectRepository w api in
        match repo with
        | Some repo =>
            match branchNameOf repo, fetchUrlOf repo with
            | Some branchName, Some url =>
                if JsString.truthy branchName && JsString.truthy url then
                  let url := normalizeUrl url in
                  output <- execute w "git ls-files" (path (Repository.rootUri repo)) ;;
                  let trackedFiles := trackedFilesOf output in
                  regexes <- await (compileGlobs (bigImageFilePaths w)) ;;
                  ret (scan regexes url branchName trackedFiles)
                else ret None
            | _, _ => ret None
            end
        | None => ret None
        end
  | Undefined | Null => ret None
  end.

(** The test of line 57: a key of the form [/source/flags], where the source
    has no line terminator and the flags are one or more of [m], [g], [i]
    and [y].  The first group is greedy and the flags hold no [/], so the
    source ends at the last [/] of the key. *)
Definition isKeyFlag (c : ascii) : bool :=
  Ascii.eqb c "m" || Ascii.eqb c "g" || Ascii.eqb c "i" || Ascii.eqb c "y".

Definition regexKey (key : string) : option (string * string) :=
  match key with
  | String c rest =>
      if Ascii.eqb c "/" then
        match JsString.splitLast "/" rest with
        | Some (source, flags) =>
            if JsString.truthy flags
               && JsString.all isKeyFlag flags
               && JsString.all (fun c => negb (JsString.isLineTerminator c)) source
            then Some (source, flags)
            else None
        | None => None
        end
      else None
  | EmptyString => None
  end.

(** The callback of [Object.keys(KNOWN_EXTENSIONS).find]: it returns a
    boolean or throws. *)
Definition keyMatches (filename key : string) : Settled bool :=
  if JsString.endsWith filename key then Resolved true
  else
    match regexKey key with
    | None => Resolved false
    | Some (source, flags) =>
        match RegExp source flags with
        | None => Rejected (Thrown "SyntaxError")
        | Some regex => Resolved (regex filename)
        end
    end.

(** [keys.find(callback)] with a callback that may throw. *)
Fixpoint findKey (filename : string) (keys : list string) : Settled (option string) :=
  match keys with
  | [] => Resolved None
  | key :: rest =>
      match keyMatches filename key with
      | Rejected r => Rejected r
      | Resolved true => Resolved (Some key)
      | Resolved false => findKey filename rest
      end
  end.

(** [KNOWN_EXTENSIONS[key]] *)
Fixpoint lookup (key : string) (table : list (string * IconDescriptor)) : option IconDescriptor :=
  match table with
  | [] => None
  | (k, d) :: rest => if String.eqb k key then Some d else lookup key rest
  end.

(** [KNOWN_LANGUAGES.find((key) => key.language === document.languageId)] *)
Definition findLanguage (languageId : string) : option LanguageEntry :=
  JsArray.find (fun key => String.eqb (language key) languageId) KNOWN_LANGUAGES.

(** [typeof fileIcon === 'string' ? fileIcon : fileIcon?.image ?? 'text'] *)
Definition iconOf (fileIcon : option IconDescriptor) : string :=
  match fileIcon with
  | Some (IconKey key) => key
  | Some (IconRecord image) => image
  | None => "text"
  end.

(** Lines 51 to 72: the icon from the two tables alone. *)
Definition staticFileIcon (document : TextDocument) : Settled string :=
  let filename := basename (fileName document) in
  match findKey filename (List.map fst KNOWN_EXTENSIONS) with
  | Rejected r => Rejected r
  | Resolved findKnownExtension =>
      let findKnownLanguage := findLanguage (languageId document) in
      let fileIcon :=
        if truthyOpt findKnownExtension then
          match findKnownExtension with
          | Some key => lookup key KNOWN_EXTENSIONS
          | None => None
          end
        else
          match findKnownLanguage with
          | Some entry => Some (image entry)
          | None => None
          end in
      Resolved (iconOf fileIcon)
  end.

Definition resolveFileIconAsync (w : World) (document : TextDocument) : Async string :=
  repoIcon <- getRepositoryIconAsync w ;;
  match repoIcon with
  | Some icon =>
      if JsString.truthy icon then ret icon else await (staticFileIcon document)
  | None => await (staticFileIcon document)
  end.

End Util.

(** ** Instances of the imports, for the examples *)

(** A fragment of [glob-to-regexp] with [extended] and [globstar] set:
    globs made of literal code units, [?], [*] and [**].  The library turns
    a run of stars that fills a whole path segment into a group of zero or
    more segments, any other run of stars into code units other than [/],
    [?] into one code unit, and anchors the result at both ends.  Globs with
    brackets, braces, commas or backslashes are outside the fragment. *)
Module GlobFragment.

Inductive Token : Type :=
| Literal (c : ascii)
| AnyChar
| Segment
| Globstar.

Definition outside (c : ascii) : bool :=
  Ascii.eqb c "[" || Ascii.eqb c "]" || Ascii.eqb c "{" || Ascii.eqb c "}"
  || Ascii.eqb c "," || Ascii.eqb c "\".

Definition atBoundary (c : option ascii) : bool :=
  match c with
  | Some d => Ascii.eqb d "/"
  | None => true
  end.

(** [prevChar] is the code unit before the current one, [run] the run of
    stars being read: the code unit before it and its length. *)
Fixpoint tokens (prevChar : option ascii) (run : option (option ascii * nat))
    (glob : string) : option (list Token) :=
  match glob with
  | EmptyString =>
      match run with
      | None => Some []
      | Some (before, starCount) =>
          Some [if Nat.ltb 1 starCount && atBoundary before then Globstar else Segment]
      end
  | String c rest =>
      if Ascii.eqb c "*" then
        match run with
        | None => tokens (Some c) (Some (prevChar, 1)) rest
        | Some (before, starCount) => tokens (Some c) (Some (before, S starCount)) rest
        end
      else
        let plain :=
          if outside c then None
          else option_map (cons (if Ascii.eqb c "?" then AnyChar else Literal c))
                          (tokens (Some c) None rest) in
        match run with
        | None => plain
        | Some (before, starCount) =>
            if Nat.ltb 1 starCount && atBoundary before && Ascii.eqb c "/"
            then option_map (cons Globstar) (tokens (Some c) None rest)
            else option_map (cons Segment) plain
        end
  end.

(** Code units other than [/], then [k]. *)
Fixpoint segmentThen (k : string -> bool) (s : string) : bool :=
  k s
  || match s with
     | EmptyString => false
     | String c s' => negb (Ascii.eqb c "/") && segmentThen k s'
     end.

(** Zero or more segments, each closed by a [/] or by the end of the string,
    then [k]; [boundary] says that a segment has just been closed. *)
Fixpoint globstarThen (k : string -> bool) (boundary : bool) (s : string) : bool :=
  (boundary && k s)
  || match s with
     | EmptyString => k EmptyString
     | String c s' => globstarThen k (Ascii.eqb c "/") s'
     end.

Fixpoint matches (ts : list Token) : string -> bool :=
  match ts with
  | [] => fun s => String.eqb s EmptyString
  | Literal c :: ts' =>
      fun s => match s with
               | String d s' => Ascii.eqb d c && matches ts' s'
               | EmptyString => false
               end
  | AnyChar :: ts' =>
      fun s => match s with
               | String d s' => negb (JsString.isLineTerminator d) && matches ts' s'
               | EmptyString => false
               end
  | Segment :: ts' => segmentThen (matches ts')
  | Globstar :: ts' => globstarThen (matches ts') true
  end.

Definition GlobToRegExp (glob : string) : option (string -> bool) :=
  option_map matches (tokens None None glob).

End GlobFragment.

(** A fragment of [RegExp]: a source of letters and digits is searched for
    as it stands, under flags without [i], without [y] and without
    repetition; nothing else is in the fragment. *)
Module RegExpFragment.

Definition isAlphaNum (c : ascii) : bool :=
  let n := nat_of_ascii c in
  (Nat.leb 48 n && Nat.leb n 57) || (Nat.leb 65 n && Nat.leb n 90)
  || (Nat.leb 97 n && Nat.leb n 122).

Fixpoint distinct (s : string) : bool :=
  match s with
  | EmptyString => true
  | String c s' => negb (JsString.contains c s') && distinct s'
  end.

(** [s.includes(pat)] *)
Fixpoint includes (pat s : string) : bool :=
  String.prefix pat s
  || match s with
     | EmptyString => false
     | String _ s' => includes pat s'
     end.

Definition RegExp (source flags : string) : option (string -> bool) :=
  if JsString.all isAlphaNum source && JsString.truthy source
     && distinct flags
     && negb (JsString.contains "i" flags) && negb (JsString.contains "y" flags)
  then Some (includes source)
  else None.

End RegExpFragment.

(** [path.posix.basename]: the last segment that is not empty. *)
Definition posixBasename (p : string) : string :=
  List.last (List.filter JsString.truthy (JsString.split "/" p)) EmptyString.

(** ** Example tables and worlds *)

Module Examples.

Definition extensions : list (string * IconDescriptor) :=
  [ (".d.ts", IconRecord "typescript-def");
    (".ts", IconRecord "ts");
    ("/Dockerfile/g", IconRecord "docker");
    (".md", IconKey "markdown") ].

Definition languages : list LanguageEntry :=
  [ {| language := "typescript"; image := IconKey "typescript" |};
    {| language := "python"; image := IconRecord "python" |} ].

#[export] Instance imports : Imports := {|
  GlobToRegExp := GlobFragment.GlobToRegExp;
  RegExp := RegExpFragment.RegExp;
  basename := posixBasename;
  KNOWN_EXTENSIONS := extensions;
  KNOWN_LANGUAGES := languages
|}.

Definition root : string := "/work/repo".

(** One repository at [root], on branch [main], with one remote. *)
Definition repository (url : option string) : Repository.t :=
  {| Repository.rootUri := {| path := root |};
     Repository.state :=
       {| HEAD := Some {| name := Some "main"; commit := Some "0a1b2c3" |};
          remotes := [ {| fetchUrl := url |} ] |} |}.

Definition api (url : option string) : API.t :=
  {| API.state := "initialized"; API.repositories := [ repository url ] |}.

Definition gitExtension (url : option string) : Extension :=
  {| isActive := false;
     activate := Resolved tt;
     getAPI := fun _ => Resolved (api url) |}.

(** An extension whose activation fails. *)
Definition brokenExtension : Extension :=
  {| isActive := false;
     activate := Rejected (Thrown "Error: git not found");
     getAPI := fun _ => Rejected (Thrown "TypeError") |}.

(** A world with the folder [root] open, in which [git ls-files] at [root]
    prints [output] and writes [errors] to its error stream; any other
    command fails to start. *)
Definition world (output errors : string) (patterns : list string)
    (extension : option Extension) : World :=
  {| workspaceFolders := Some [ {| uri := {| path := root |} |} ];
     bigImageFilePaths := patterns;
     exec := fun command cwd =>
       if String.eqb command "git ls-files" && String.eqb cwd root
       then {| error := None; standardOutput := output; standardError := errors |}
       else {| error := Some "ENOENT"; standardOutput := ""; standardError := "" |};
     getExtension := fun id =>
       if String.eqb id "vscode.git" then extension else None |}.

(** A world in which every command ends with a failure status after writing
    [errors] to its error stream. *)
Definition failingWorld (errors : string) : World :=
  {| workspaceFolders := Some [ {| uri := {| path := root |} |} ];
     bigImageFilePaths := [];
     exec := fun command _ =>
       {| error := Some ("Command failed: " ++ command);
          standardOutput := "";
          standardError := errors |};
     getExtension := fun _ => None |}.

(** The process before any call, and with the integration loaded. *)
Definition fresh : Process := {| git := Undefined; journal := [] |}.

Definition loaded (url : string) : Process :=
  {| git := Loaded (api (Some url)); journal := [] |}.

Definition newline : string := String "010" EmptyString.

(** A listing with the deeper file first. *)
Definition twoIcons : string := "a/b/icon.png" ++ newline ++ "icon.png" ++ newline.

Definition sshUrl : string := "git@host.com:org/repo.git".

Definition indexTs : TextDocument :=
  {| fileName := "/work/repo/src/index.ts"; languageId := "typescript" |}.

Definition notes : TextDocument :=
  {| fileName := "/work/repo/notes.xyz"; languageId := "plaintext" |}.

(** A declaration file, whose name ends with two keys of the table, and a
    file whose key maps to a plain string. *)
Definition indexDts : TextDocument :=
  {| fileName := "/work/repo/src/index.d.ts"; languageId := "typescript" |}.

Definition readme : TextDocument :=
  {| fileName := "/work/repo/README.md"; languageId := "python" |}.


(** Two files at the root that [logo.*] accepts, and a listing in which a
    file of a subdirectory stands before [logo.png]. *)
Definition logoListing : string := "logo.a" ++ newline ++ "logo.png" ++ newline.

Definition bannerListing : string :=
  "img/banner.png" ++ newline ++ "logo.png" ++ newline ++ "src/main.ts" ++ newline.

(** A listing in which the deepest file comes first and two files share the
    least depth of the files named [logo.png]. *)
Definition threeLogos : string :=
  "docs/img/logo.png" ++ newline ++ "b/logo.png" ++ newline
  ++ "a/logo.png" ++ newline ++ "README.md" ++ newline.

(** One repository at [root] with the given [HEAD] and remotes, the API
    that exposes it and the process that has loaded it. *)
Definition repositoryWith (head : option Ref) (rs : list Remote) : Repository.t :=
  {| Repository.rootUri := {| path := root |};
     Repository.state := {| HEAD := head; remotes := rs |} |}.

Definition apiWith (head : option Ref) (rs : list Remote) : API.t :=
  {| API.state := "initialized"; API.repositories := [ repositoryWith head rs ] |}.

Definition loadedWith (head : option Ref) (rs : list Remote) : Process :=
  {| git := Loaded (apiWith head rs); journal := [] |}.

(** A repository that tracks [logo.png] alone, and the URL of that file. *)
Definition logoWorld : World := world ("logo.png" ++ newline) "" ["logo.*"] None.

Definition logoUrl : string := "https://raw.host.com/org/repo/main/logo.png".

(** A table whose second key is empty. *)
Definition importsWithEmptyKey : Imports := {|
  GlobToRegExp := GlobFragment.GlobToRegExp;
  RegExp := RegExpFragment.RegExp;
  basename := posixBasename;
  KNOWN_EXTENSIONS :=
    [ (".md", IconKey "markdown"); ("", IconKey "file"); (".ts", IconRecord "ts") ];
  KNOWN_LANGUAGES := languages
|}.

(** A table whose first key is a pattern with an unclosed group. *)
Definition importsWithBadPattern : Imports := {|
  GlobToRegExp := GlobFragment.GlobToRegExp;
  RegExp := RegExpFragment.RegExp;
  basename := posixBasename;
  KNOWN_EXTENSIONS := [ ("/(test/g", IconRecord "test"); (".ts", IconRecord "ts") ];
  KNOWN_LANGUAGES := languages
|}.

End Examples.


(** * Properties *)

Ltac async_unfold :=
  unfold bind, ret, reject, await, perform, readGit, writeGit, tryCatch in *.

Lemma truthy_false (s : string) : JsString.truthy s = false <-> s = "".
Proof.
  unfold JsString.truthy. rewrite negb_false_iff. apply String.eqb_eq.
Qed.

Lemma truthy_true (s : string) : JsString.truthy s = true <-> s <> "".
Proof.
  unfold JsString.truthy. rewrite negb_true_iff. apply String.eqb_neq.
Qed.

(** ** The command helper *)

Section Execute.

Variables (w : World) (command cwd : string) (p : Process).

Lemma execute_journal :
  snd (execute w command cwd p)
  = {| git := git p; journal := (journal p ++ [Exec command cwd])%list |}.
Proof.
  unfold execute. async_unfold. reflexivity.
Qed.

Lemma execute_callback :
  fst (execute w command cwd p) = executeCallback (exec w command cwd).
Proof.
  unfold execute. async_unfold. reflexivity.
Qed.

(** C6, amended.  [execute] resolves with the captured output when the
    callback reports no error and the error stream is empty; it rejects
    without a value whenever the callback reports an error, whatever the
    streams hold; and it rejects with the error stream when no error is
    reported and the error stream is not empty, that is when the command
    wrote to it and ended with success. *)
Theorem execute_settles :
  (error (exec w command cwd) = None ->
   standardError (exec w command cwd) = "" ->
   fst (execute w command cwd p) = Resolved (standardOutput (exec w command cwd)))
  /\ (error (exec w command cwd) <> None ->
      fst (execute w command cwd p) = Rejected NoValue)
  /\ (error (exec w command cwd) = None ->
      standardError (exec w command cwd) <> "" ->
      fst (execute w command cwd p)
      = Rejected (ErrorStream (standardError (exec w command cwd)))).
Proof.
  rewrite execute_callback. unfold executeCallback.
  destruct (error (exec w command cwd)) as [e|].
  - repeat split; intros; congruence.
  - split; [|split].
    + intros _ Hquiet. apply truthy_false in Hquiet. now rewrite Hquiet.
    + congruence.
    + intros _ Hnoisy. apply truthy_true in Hnoisy. now rewrite Hnoisy.
Qed.

End Execute.

(** ** The accessor of the git integration *)

Section GetGit.

Lemma getGit_cached (w : World) (p : Process) :
  cached (git p) = true -> getGit w p = (Resolved (git p), p).
Proof.
  intros H. unfold getGit. async_unfold. now rewrite H.
Qed.


(** When the extension is not found nothing is thrown: [git] stays
    [undefined], and the next call looks the extension up again. *)
Lemma getGit_missing_extension (w : World) (p : Process) :
  git p = Undefined ->
  getExtension w "vscode.git" = None ->
  fst (getGit w p) = Resolved Undefined /\ git (snd (getGit w p)) = Undefined.
Proof.
  intros Hg He. unfold getGit. async_unfold. rewrite Hg. simpl. rewrite He.
  simpl. split; reflexivity.
Qed.

(** An uninterrupted call is its first part followed by its second. *)
Lemma getGit_begin_resume (w : World) (p : Process) :
  getGit w p
  = match getGitBegin w p with
    | (inl r, p') => (r, p')
    | (inr s, p') => getGitResume s p'
    end.
Proof.
  unfold getGit, getGitBegin, getGitResume, getGitExports, getGitCatch.
  async_unfold. destruct (cached (git p)); [reflexivity|]. simpl.
  destruct (getExtension w "vscode.git") as [e|]; [|reflexivity].
  destruct (isActive e); simpl.
  - now destruct (getAPI e 1).
  - destruct (activate e) as [[]|r]; simpl; [|reflexivity].
    now destruct (getAPI e 1).
Qed.




End GetGit.

(** ** The repository icon resolver: guards and effects *)

Section Guards.

Context {imports : Imports}.

Ltac break_match :=
  match goal with
  | |- context [match ?x with _ => _ end] => destruct x eqn:?
  | |- context [if ?x then _ else _] => destruct x eqn:?
  end.

(** The resolver leaves the process as it was, or adds one [git ls-files]
    to its journal. *)
Lemma getRepositoryIconAsync_effects (w : World) (p : Process) :
  snd (getRepositoryIconAsync w p) = p
  \/ exists cwd,
       snd (getRepositoryIconAsync w p)
       = {| git := git p; journal := (journal p ++ [Exec "git ls-files" cwd])%list |}.
Proof.
  destruct p as [g j]. unfold getRepositoryIconAsync, execute. async_unfold. simpl.
  repeat (break_match; simpl; auto); right; eexists; reflexivity.
Qed.

Lemma getRepositoryIconAsync_unloaded (w : World) (p : Process) :
  git p = Undefined \/ git p = Null ->
  getRepositoryIconAsync w p = (Resolved None, p).
Proof.
  unfold getRepositoryIconAsync. async_unfold.
  intros [H | H]; rewrite H; reflexivity.
Qed.

(** The resolver past its first guard. *)
Lemma getRepositoryIconAsync_loaded (w : World) (p : Process) (api : API.t) :
  git p = Loaded api ->
  getRepositoryIconAsync w p
  = if negb (String.eqb (API.state api) "initialized")
       || Nat.eqb (List.length (API.repositories api)) 0
       || match workspaceFolders w with Some _ => false | None => true end
    then (Resolved None, p)
    else
      match selectRepository w api with
      | Some repo =>
          match branchNameOf repo, fetchUrlOf repo with
          | Some branchName, Some url =>
              if JsString.truthy branchName && JsString.truthy url then
                match executeCallback (exec w "git ls-files" (path (Repository.rootUri repo))) with
                | Resolved output =>
                    let p' := {| git := git p;
                                 journal := (journal p ++ [Exec "git ls-files"
                                               (path (Repository.rootUri repo))])%list |} in
                    match compileGlobs (bigImageFilePaths w) with
                    | Resolved regexes =>
                        (Resolved (scan regexes (normalizeUrl url) branchName
                                     (trackedFilesOf output)), p')
                    | Rejected r => (Rejected r, p')
                    end
                | Rejected r =>
                    (Rejected r,
                     {| git := git p;
                        journal := (journal p ++ [Exec "git ls-files"
                                      (path (Repository.rootUri repo))])%list |})
                end
              else (Resolved None, p)
          | _, _ => (Resolved None, p)
          end
      | None => (Resolved None, p)
      end.
Proof.
  destruct p as [g j]. simpl. intros H.
  unfold getRepositoryIconAsync, execute. async_unfold. simpl. rewrite H.
  repeat (break_match; simpl; try reflexivity; try congruence).
Qed.

Lemma selectRepository_none (w : World) (api : API.t) :
  (forall repo folders folder,
      In repo (API.repositories api) ->
      workspaceFolders w = Some folders ->
      In folder folders ->
      path (Repository.rootUri repo) <> path (uri folder)) ->
  selectRepository w api = None.
Proof.
  intros H. unfold selectRepository, JsArray.find.
  destruct (List.find (inWorkspace w) (API.repositories api)) as [repo|] eqn:E;
    [|reflexivity].
  apply List.find_some in E. destruct E as [Hin Hw].
  unfold inWorkspace, JsArray.some in Hw.
  destruct (workspaceFolders w) as [folders|] eqn:Ef; [|discriminate].
  apply List.existsb_exists in Hw. destruct Hw as [folder [Hf Heq]].
  apply String.eqb_eq in Heq. exfalso. eapply H; eauto.
Qed.

Lemma noReference_branchName (repo : Repository.t) :
  noReference repo -> branchNameOf repo = None.
Proof.
  unfold branchNameOf. intros [H | [head [H [Hn Hc]]]]; rewrite H.
  - reflexivity.
  - now rewrite Hn.
Qed.

Lemma noFetchUrl_fetchUrl (repo : Repository.t) :
  noFetchUrl repo -> fetchUrlOf repo = None.
Proof.
  unfold noFetchUrl, fetchUrlOf. intros H.
  destruct (remotes (Repository.state repo)) as [|remote others]; [reflexivity|].
  apply H. now left.
Qed.

(** C2.  The resolver returns [undefined], without rejecting and without
    any effect, when the handle is absent, or its state is not
    ['initialized'], or it has no repository, or no workspace folder is open,
    or no repository root is the path of an open folder, or the selected
    repository has no reference, or it has no remote with a fetch URL. *)
Theorem getRepositoryIconAsync_absent (w : World) (p : Process) :
  (git p = Undefined \/ git p = Null
   \/ exists api, git p = Loaded api
        /\ (API.state api <> "initialized"
            \/ API.repositories api = []
            \/ workspaceFolders w = None
            \/ (forall repo folders folder,
                   In repo (API.repositories api) ->
                   workspaceFolders w = Some folders ->
                   In folder folders ->
                   path (Repository.rootUri repo) <> path (uri folder))
            \/ exists repo, selectRepository w api = Some repo
                            /\ (noReference repo \/ noFetchUrl repo))) ->
  getRepositoryIconAsync w p = (Resolved None, p).
Proof.
  intros [H | [H | [api [Hg H]]]];
    try (apply getRepositoryIconAsync_unloaded; auto; fail).
  rewrite (getRepositoryIconAsync_loaded w p api Hg).
  destruct H as [Hs | [Hr | [Hw | [Hn | [repo [Hsel Hrepo]]]]]].
  - apply String.eqb_neq in Hs. rewrite Hs. reflexivity.
  - rewrite Hr. simpl. now rewrite orb_true_r.
  - rewrite Hw. now rewrite !orb_true_r.
  - rewrite (selectRepository_none w api Hn). now destruct (_ || _).
  - rewrite Hsel. destruct (_ || _); [reflexivity|].
    destruct Hrepo as [Hb | Hu].
    + now rewrite (noReference_branchName repo Hb).
    + rewrite (noFetchUrl_fetchUrl repo Hu). now destruct (branchNameOf repo).
Qed.

(** C10.  The resolver never writes [git] and its only call to the outside
    is at most one [git ls-files]: no call to the extension host is made.
    While [git] is still unset it returns [undefined] with no effect at all,
    and [resolveFileIconAsync] is then the lookup in the two static tables. *)
Theorem getRepositoryIconAsync_never_loads (w : World) (p : Process) :
  git (snd (getRepositoryIconAsync w p)) = git p
  /\ (exists effects,
        journal (snd (getRepositoryIconAsync w p)) = (journal p ++ effects)%list
        /\ (List.length effects <= 1)%nat
        /\ forall e, In e effects -> exists cwd, e = Exec "git ls-files" cwd)
  /\ (git p = Undefined ->
      getRepositoryIconAsync w p = (Resolved None, p)
      /\ forall document,
           resolveFileIconAsync w document p = (staticFileIcon document, p)).
Proof.
  split; [|split].
  - destruct (getRepositoryIconAsync_effects w p) as [H | [cwd H]]; now rewrite H.
  - destruct (getRepositoryIconAsync_effects w p) as [H | [cwd H]]; rewrite H.
    + exists []. rewrite List.app_nil_r. repeat split; simpl; [lia | tauto].
    + exists [Exec "git ls-files" cwd]. repeat split; simpl; [lia|].
      intros e [He | []]. now exists cwd.
  - intros Hg.
    assert (Hr : getRepositoryIconAsync w p = (Resolved None, p))
      by (apply getRepositoryIconAsync_unloaded; auto).
    split; [exact Hr|].
    intros document. unfold resolveFileIconAsync. async_unfold. now rewrite Hr.
Qed.

End Guards.

(** ** The rewriting of the fetch URL *)

Section Url.

Lemma stripCredentials_eq (s : string) :
  stripCredentials s
  = match credentialsAt s with
    | Some r => r
    | None =>
        match s with
        | EmptyString => EmptyString
        | String c s' => String c (stripCredentials s')
        end
    end.
Proof.
  destruct s; reflexivity.
Qed.




(** C5.  The code does not remove the trailing [.git] only:
    [.replace('.git', '')] deletes the leftmost [.git] of the URL, wherever
    it stands.  For the repository [user.github.io], in both branches, the
    [.git] inside [.github] goes and the trailing [.git] stays; and a URL
    that does not end in [.git] loses a [.git] all the same. *)
Theorem removeDotGit_leftmost :
  normalizeUrl "https://github.com/user/user.github.io.git"
  = "https://github.com/user/userhub.io.git"
  /\ normalizeUrl "git@github.com:user/user.github.io.git"
     = "https://github.com/user/userhub.io.git"
  /\ normalizeUrl "https://github.com/user/user.github.io"
     = "https://github.com/user/userhub.io".
Proof.
  repeat split; vm_compute; reflexivity.
Qed.

End Url.

(** ** The sort by depth and the scan *)

Section Sorting.

Variable A : Type.
Variable compareFn : A -> A -> Z.

Lemma insert_permutation (a : A) (xs : list A) :
  Permutation (JsArray.insert compareFn a xs) (a :: xs).
Proof.
  induction xs as [|b xs IH]; simpl.
  - apply Permutation_refl.
  - destruct (compareFn a b <=? 0)%Z.
    + apply Permutation_refl.
    + apply Permutation_trans with (b :: a :: xs).
      * now apply perm_skip.
      * apply perm_swap.
Qed.

Lemma sort_permutation (xs : list A) :
  Permutation (JsArray.sort compareFn xs) xs.
Proof.
  induction xs as [|a xs IH]; simpl.
  - apply perm_nil.
  - apply Permutation_trans with (a :: JsArray.sort compareFn xs).
    + apply insert_permutation.
    + now apply perm_skip.
Qed.

Lemma sort_In (x : A) (xs : list A) :
  In x (JsArray.sort compareFn xs) <-> In x xs.
Proof.
  split; apply Permutation_in.
  - apply sort_permutation.
  - apply Permutation_sym, sort_permutation.
Qed.

Variable R : A -> A -> Prop.
Hypothesis compareFn_le : forall a b, (compareFn a b <= 0)%Z -> R a b.
Hypothesis compareFn_gt : forall a b, (compareFn a b > 0)%Z -> R b a.
Hypothesis R_trans : forall a b c, R a b -> R b c -> R a c.

Lemma insert_sorted (a : A) (xs : list A) :
  StronglySorted R xs -> StronglySorted R (JsArray.insert compareFn a xs).
Proof.
  induction 1 as [|b xs Hs IH Hb]; simpl.
  - constructor; constructor.
  - destruct (compareFn a b <=? 0)%Z eqn:E.
    + apply Z.leb_le in E. constructor.
      * now constructor.
      * constructor.
        -- now apply compareFn_le.
        -- eapply Forall_impl; [|exact Hb].
           intros c Hc. eapply R_trans; [|exact Hc]. now apply compareFn_le.
    + apply Z.leb_gt in E. constructor; [exact IH|].
      apply Forall_forall. intros c Hc.
      apply (Permutation_in _ (insert_permutation a xs)) in Hc.
      destruct Hc as [<- | Hc].
      * apply compareFn_gt. lia.
      * rewrite Forall_forall in Hb. now apply Hb.
Qed.

Lemma sort_sorted (xs : list A) : StronglySorted R (JsArray.sort compareFn xs).
Proof.
  induction xs as [|a xs IH]; simpl.
  - constructor.
  - now apply insert_sorted.
Qed.

Hypothesis R_refl : forall a, R a a.

(** In a sorted list the first element that passes a test is below every
    element that passes it. *)
Lemma find_sorted_least (test : A -> bool) (xs : list A) (x : A) :
  StronglySorted R xs ->
  List.find test xs = Some x ->
  forall y, In y xs -> test y = true -> R x y.
Proof.
  induction 1 as [|a xs Hs IH Ha]; simpl; [discriminate|].
  destruct (test a) eqn:E; intros Hx y Hy Hty.
  - injection Hx as <-. destruct Hy as [<- | Hy].
    + apply R_refl.
    + rewrite Forall_forall in Ha. now apply Ha.
  - destruct Hy as [<- | Hy]; [congruence|]. now apply IH.
Qed.

End Sorting.

Section Scan.

Context {imports : Imports}.

Lemma find_ext (A : Type) (f g : A -> bool) (xs : list A) :
  (forall x, f x = g x) -> List.find f xs = List.find g xs.
Proof.
  intros H. induction xs as [|a xs IH]; simpl; [reflexivity|].
  now rewrite H, IH.
Qed.

Lemma find_is_some (A : Type) (f : A -> bool) (xs : list A) :
  match List.find f xs with Some _ => true | None => false end = List.existsb f xs.
Proof.
  induction xs as [|a xs IH]; simpl; [reflexivity|].
  now destruct (f a).
Qed.

(** The loop returns the URL of the first tracked file that one of the
    compiled globs accepts. *)
Lemma scan_find (regexes : list (string -> bool)) (url branchName : string)
    (trackedFiles : list string) :
  scan regexes url branchName trackedFiles
  = option_map (iconUrl url branchName)
      (List.find (fun file => List.existsb (fun regex => regex file) regexes)
         trackedFiles).
Proof.
  induction trackedFiles as [|file rest IH]; simpl; [reflexivity|].
  unfold JsArray.find. rewrite <- find_is_some.
  destruct (List.find (fun regex => regex file) regexes); [reflexivity|exact IH].
Qed.

Lemma compileGlobs_matchedBy (filePaths : list string) :
  forall regexes,
    compileGlobs filePaths = Resolved regexes ->
    forall file,
      List.existsb (fun regex => regex file) regexes = matchedBy filePaths file.
Proof.
  unfold matchedBy, JsArray.some.
  induction filePaths as [|filePath rest IH]; simpl; intros regexes H file.
  - injection H as <-. reflexivity.
  - destruct (GlobToRegExp filePath) as [regex|] eqn:E; [|discriminate].
    destruct (compileGlobs rest) as [rs|r] eqn:Er; [|discriminate].
    injection H as <-. simpl. f_equal. now apply IH.
Qed.

Lemma compileGlobs_total (filePaths : list string) :
  (forall glob, In glob filePaths -> GlobToRegExp glob <> None) ->
  exists regexes, compileGlobs filePaths = Resolved regexes.
Proof.
  induction filePaths as [|filePath rest IH]; simpl; intros H.
  - now exists [].
  - destruct (GlobToRegExp filePath) as [regex|] eqn:E.
    + destruct IH as [rs Hrs]; [intros g Hg; apply H; now right|].
      rewrite Hrs. now eexists.
    + exfalso. apply (H filePath); [now left | exact E].
Qed.

Lemma matchedBy_In (filePaths : list string) (glob file : string)
    (regex : string -> bool) :
  In glob filePaths -> GlobToRegExp glob = Some regex -> regex file = true ->
  matchedBy filePaths file = true.
Proof.
  intros Hin Hg Hr. unfold matchedBy, JsArray.some.
  apply List.existsb_exists. exists glob. split; [exact Hin|]. now rewrite Hg.
Qed.

Lemma byDepth_le (a b : string) : (byDepth a b <= 0)%Z -> shallower a b.
Proof. unfold byDepth, shallower. lia. Qed.

Lemma byDepth_gt (a b : string) : (byDepth a b > 0)%Z -> shallower b a.
Proof. unfold byDepth, shallower. lia. Qed.

Lemma shallower_trans (a b c : string) : shallower a b -> shallower b c -> shallower a c.
Proof. unfold shallower. lia. Qed.

Lemma trackedFilesOf_sorted (output : string) :
  StronglySorted shallower (trackedFilesOf output).
Proof.
  apply sort_sorted.
  - exact byDepth_le.
  - exact byDepth_gt.
  - exact shallower_trans.
Qed.

Lemma trackedFilesOf_permutation (output : string) :
  Permutation (trackedFilesOf output) (JsString.split "010" (JsString.trim output)).
Proof. apply sort_permutation. Qed.

Lemma trackedFilesOf_In (output file : string) :
  In file (trackedFilesOf output)
  <-> In file (JsString.split "010" (JsString.trim output)).
Proof. apply sort_In. Qed.

(** The first accepted file of the sorted list is a listed file, accepted,
    and no accepted file of the listing has fewer segments. *)
Lemma first_match_shallowest (test : string -> bool) (output file : string) :
  List.find test (trackedFilesOf output) = Some file ->
  In file (JsString.split "010" (JsString.trim output))
  /\ test file = true
  /\ forall other, In other (JsString.split "010" (JsString.trim output)) ->
                   test other = true -> shallower file other.
Proof.
  intros H. pose proof (List.find_some _ _ H) as [Hin Ht].
  split; [|split].
  - now apply trackedFilesOf_In.
  - exact Ht.
  - intros other Ho Hto.
    apply (find_sorted_least string shallower) with (test := test)
      (xs := trackedFilesOf output).
    + intros a. unfold shallower. lia.
    + apply trackedFilesOf_sorted.
    + exact H.
    + now apply trackedFilesOf_In.
    + exact Hto.
Qed.

(** An accepted file with strictly fewer segments than any other accepted
    file of the listing is the first accepted file of the sorted list. *)
Lemma strictly_shallowest_first (test : string -> bool) (output file : string) :
  In file (JsString.split "010" (JsString.trim output)) ->
  test file = true ->
  (forall other, In other (JsString.split "010" (JsString.trim output)) ->
                 test other = true -> other <> file ->
                 (segments file < segments other)%nat) ->
  List.find test (trackedFilesOf output) = Some file.
Proof.
  intros Hin Ht Hmin.
  destruct (List.find test (trackedFilesOf output)) as [first|] eqn:E.
  - destruct (first_match_shallowest _ _ _ E) as [Hfin [Hft Hfle]].
    destruct (String.string_dec first file) as [-> | Hne]; [reflexivity|].
    specialize (Hmin first Hfin Hft Hne).
    specialize (Hfle file Hin Ht). unfold shallower in Hfle. lia.
  - exfalso.
    assert (Hf : test file = false).
    { apply (List.find_none _ _ E). now apply trackedFilesOf_In. }
    congruence.
Qed.

End Scan.

Section Stability.

Variable test : string -> bool.
Variable depth : nat.

Lemma find_insert_level (a : string) (xs : list string) :
  List.find (atLevel test depth) (JsArray.insert byDepth a xs) = List.find (atLevel test depth) (a :: xs).
Proof.
  induction xs as [|b xs IH]; [reflexivity|].
  simpl JsArray.insert. destruct (byDepth a b <=? 0)%Z eqn:E; [reflexivity|].
  apply Z.leb_gt in E. unfold byDepth in E.
  change (List.find (atLevel test depth) (b :: JsArray.insert byDepth a xs))
    with (if atLevel test depth b then Some b else List.find (atLevel test depth) (JsArray.insert byDepth a xs)).
  rewrite IH. simpl. unfold atLevel.
  destruct (Nat.eqb (segments a) depth) eqn:Ea, (Nat.eqb (segments b) depth) eqn:Eb;
    rewrite ?andb_false_r, ?andb_true_r; try reflexivity.
  apply Nat.eqb_eq in Ea, Eb. exfalso. lia.
Qed.

(** Sorting by depth keeps the files of one depth in their order. *)
Lemma find_sort_level (xs : list string) :
  List.find (atLevel test depth) (JsArray.sort byDepth xs) = List.find (atLevel test depth) xs.
Proof.
  induction xs as [|a xs IH]; [reflexivity|].
  simpl JsArray.sort. rewrite find_insert_level. simpl. now rewrite IH.
Qed.

Lemma find_level_of_test (xs : list string) (g : string) :
  List.find test xs = Some g -> segments g = depth -> List.find (atLevel test depth) xs = Some g.
Proof.
  induction xs as [|a xs IH]; simpl; [discriminate|].
  unfold atLevel at 1. destruct (test a) eqn:E; simpl.
  - intros H Hd. injection H as <-. apply Nat.eqb_eq in Hd. now rewrite Hd.
  - intros H Hd. now apply IH.
Qed.

Lemma find_level_first (before rest : list string) (file : string) :
  (forall other, In other before -> test other = true -> segments other <> depth) ->
  test file = true -> segments file = depth ->
  List.find (atLevel test depth) (before ++ file :: rest)%list = Some file.
Proof.
  intros Hb Ht Hd. induction before as [|a before IH]; simpl.
  - unfold atLevel. apply Nat.eqb_eq in Hd. now rewrite Ht, Hd.
  - unfold atLevel at 1. destruct (test a) eqn:Ea; simpl.
    + destruct (Nat.eqb (segments a) depth) eqn:E.
      * apply Nat.eqb_eq in E. exfalso. apply (Hb a); auto. now left.
      * apply IH. intros other Ho. apply Hb. now right.
    + apply IH. intros other Ho. apply Hb. now right.
Qed.

End Stability.

(** Among the accepted files of the least depth the first of the listing
    is the first accepted file of the sorted list. *)
Lemma least_depth_first_listed (test : string -> bool) (output file : string)
    (before rest : list string) :
  JsString.split "010" (JsString.trim output) = (before ++ file :: rest)%list ->
  test file = true ->
  (forall other, In other (JsString.split "010" (JsString.trim output)) ->
                 test other = true -> (segments file <= segments other)%nat) ->
  (forall other, In other before -> test other = true ->
                 segments other <> segments file) ->
  List.find test (trackedFilesOf output) = Some file.
Proof.
  intros Hlist Hm Hleast Hbefore.
  assert (Hin : In file (JsString.split "010" (JsString.trim output))).
  { rewrite Hlist. apply List.in_or_app. right. now left. }
  destruct (List.find test (trackedFilesOf output)) as [g|] eqn:E.
  - destruct (first_match_shallowest _ _ _ E) as [Hgin [Hgm Hgle]].
    assert (Hd : segments g = segments file).
    { specialize (Hgle file Hin Hm). specialize (Hleast g Hgin Hgm).
      unfold shallower in Hgle. lia. }
    pose proof (find_level_of_test _ (segments file) _ g E Hd) as Hl.
    unfold trackedFilesOf in Hl. rewrite find_sort_level, Hlist in Hl.
    rewrite (find_level_first _ (segments file) before rest file Hbefore Hm eq_refl)
      in Hl.
    now injection Hl as <-.
  - exfalso.
    assert (Hf : test file = false).
    { apply (List.find_none _ _ E). now apply trackedFilesOf_In. }
    congruence.
Qed.

(** Every path has at least one segment. *)
Lemma segments_positive (file : string) : (1 <= segments file)%nat.
Proof.
  unfold segments. induction file as [|c file IH]; simpl; [lia|].
  destruct (Ascii.eqb c "/"); simpl; [lia|].
  destruct (JsString.split "/" file); simpl in *; lia.
Qed.

(** ** The repository icon resolver: the selected file *)

Section Selection.

Context {imports : Imports}.

Variables (w : World) (p : Process) (api : API.t) (repo : Repository.t).
Variables (branchName url output : string).

(** The guards pass: the integration is loaded and initialized, a folder is
    open, [repo] is the repository of the workspace, it has a reference and
    a fetch URL. *)
Hypothesis git_loaded : git p = Loaded api.
Hypothesis git_initialized : API.state api = "initialized".
Hypothesis folders_open : workspaceFolders w <> None.
Hypothesis repo_selected : selectRepository w api = Some repo.
Hypothesis repo_branch : branchNameOf repo = Some branchName.
Hypothesis branch_not_empty : branchName <> "".
Hypothesis repo_url : fetchUrlOf repo = Some url.
Hypothesis url_not_empty : url <> "".

(** [git ls-files] runs at the root of [repo], prints [output] and writes
    nothing to its error stream; every configured glob compiles. *)
Hypothesis command_ran :
  error (exec w "git ls-files" (path (Repository.rootUri repo))) = None.
Hypothesis command_quiet :
  standardError (exec w "git ls-files" (path (Repository.rootUri repo))) = "".
Hypothesis command_output :
  standardOutput (exec w "git ls-files" (path (Repository.rootUri repo))) = output.
Hypothesis globs_compile :
  forall glob, In glob (bigImageFilePaths w) -> GlobToRegExp glob <> None.

Lemma selected_not_empty : Nat.eqb (List.length (API.repositories api)) 0 = false.
Proof.
  unfold selectRepository, JsArray.find in repo_selected.
  destruct (API.repositories api); [discriminate | reflexivity].
Qed.

Lemma resolves_to_first_match :
  fst (getRepositoryIconAsync w p)
  = Resolved
      (option_map (iconUrl (normalizeUrl url) branchName)
         (List.find (matchedBy (bigImageFilePaths w)) (trackedFilesOf output))).
Proof.
  rewrite (getRepositoryIconAsync_loaded w p api git_loaded).
  rewrite git_initialized, selected_not_empty. simpl.
  destruct (workspaceFolders w) as [folders|]; [|congruence].
  rewrite repo_selected, repo_branch, repo_url.
  apply truthy_true in branch_not_empty, url_not_empty.
  rewrite branch_not_empty, url_not_empty. simpl.
  unfold executeCallback. rewrite command_ran, command_quiet, command_output. simpl.
  destruct (compileGlobs_total _ globs_compile) as [regexes Hc].
  rewrite Hc. simpl. rewrite scan_find. do 2 f_equal.
  apply find_ext. intros file. now apply compileGlobs_matchedBy.
Qed.

(** C3.  The tracked files are sorted by ascending count of path segments
    (the sorted list is a permutation of the listing), the result is the URL
    of the first file of the sorted list that a configured glob accepts, and
    so an accepted file with fewer segments than every other accepted file
    is the one selected, wherever it stands in the listing: [icon.png]
    before [a/b/icon.png]. *)
Theorem shallowest_match_selected :
  Permutation (trackedFilesOf output) (JsString.split "010" (JsString.trim output))
  /\ StronglySorted shallower (trackedFilesOf output)
  /\ fst (getRepositoryIconAsync w p)
     = Resolved
         (option_map (iconUrl (normalizeUrl url) branchName)
            (List.find (matchedBy (bigImageFilePaths w)) (trackedFilesOf output)))
  /\ forall file,
       In file (JsString.split "010" (JsString.trim output)) ->
       matchedBy (bigImageFilePaths w) file = true ->
       (forall other,
           In other (JsString.split "010" (JsString.trim output)) ->
           matchedBy (bigImageFilePaths w) other = true ->
           other <> file -> (segments file < segments other)%nat) ->
       fst (getRepositoryIconAsync w p)
       = Resolved (Some (iconUrl (normalizeUrl url) branchName file)).
Proof.
  split; [apply trackedFilesOf_permutation|].
  split; [apply trackedFilesOf_sorted|].
  split; [apply resolves_to_first_match|].
  intros file Hin Hm Hmin. rewrite resolves_to_first_match.
  now rewrite (strictly_shallowest_first _ _ _ Hin Hm Hmin).
Qed.

End Selection.

Section SshRemote.

Context {imports : Imports}.

Variables (w : World) (p : Process) (api : API.t) (repo : Repository.t).
Variables (head : Ref) (remote : Remote) (others : list Remote).
Variables (output : string) (test : string -> bool).

(** C1, amended.  With the first remote [git@host.com:org/repo.git], the
    [HEAD] named [main], the glob [logo.*] configured and accepting the
    tracked file [logo.png], and no file accepted by a configured glob that
    stands at the root of the repository before [logo.png] in the listing
    (accepted files in subdirectories may stand anywhere: the sort puts
    them after), the resolver returns
    [https://raw.host.com/org/repo/main/logo.png]. *)
Theorem ssh_remote_logo (before rest : list string) :
  git p = Loaded api ->
  API.state api = "initialized" ->
  workspaceFolders w <> None ->
  selectRepository w api = Some repo ->
  HEAD (Repository.state repo) = Some head ->
  name head = Some "main" ->
  remotes (Repository.state repo) = remote :: others ->
  fetchUrl remote = Some "git@host.com:org/repo.git" ->
  error (exec w "git ls-files" (path (Repository.rootUri repo))) = None ->
  standardError (exec w "git ls-files" (path (Repository.rootUri repo))) = "" ->
  standardOutput (exec w "git ls-files" (path (Repository.rootUri repo))) = output ->
  (forall glob, In glob (bigImageFilePaths w) -> GlobToRegExp glob <> None) ->
  In "logo.*" (bigImageFilePaths w) ->
  GlobToRegExp "logo.*" = Some test ->
  test "logo.png" = true ->
  JsString.split "010" (JsString.trim output) = (before ++ "logo.png" :: rest)%list ->
  (forall file,
      In file before ->
      matchedBy (bigImageFilePaths w) file = true -> (1 < segments file)%nat) ->
  fst (getRepositoryIconAsync w p)
  = Resolved (Some "https://raw.host.com/org/repo/main/logo.png").
Proof.
  intros Hg Hi Hw Hs Hh Hn Hr Hu He Hq Ho Hc Hin Hglob Htest Hlist Hbefore.
  assert (Hb : branchNameOf repo = Some "main").
  { unfold branchNameOf. now rewrite Hh, Hn. }
  assert (Hf : fetchUrlOf repo = Some "git@host.com:org/repo.git").
  { unfold fetchUrlOf. now rewrite Hr. }
  rewrite (resolves_to_first_match w p api repo "main"
             "git@host.com:org/repo.git" output);
    try assumption; try discriminate.
  rewrite (least_depth_first_listed _ output "logo.png" before rest Hlist).
  - reflexivity.
  - eapply matchedBy_In; eassumption.
  - intros other _ _. apply segments_positive.
  - intros other Ho' Hm. specialize (Hbefore other Ho' Hm).
    change (segments "logo.png") with 1%nat. lia.
Qed.

End SshRemote.

(** ** The file icon resolver *)

Section FileIcon.

Context {imports : Imports}.

Lemma resolveFileIconAsync_result (w : World) (document : TextDocument) (p : Process) :
  fst (resolveFileIconAsync w document p)
  = match fst (getRepositoryIconAsync w p) with
    | Resolved (Some icon) =>
        if JsString.truthy icon then Resolved icon else staticFileIcon document
    | Resolved None => staticFileIcon document
    | Rejected r => Rejected r
    end.
Proof.
  unfold resolveFileIconAsync. async_unfold.
  destruct (getRepositoryIconAsync w p) as [[[icon|]|r] p']; simpl; try reflexivity.
  now destruct (JsString.truthy icon).
Qed.

Lemma findKey_first (filename key : string) (before rest : list string) :
  (forall k, In k before -> keyMatches filename k = Resolved false) ->
  keyMatches filename key = Resolved true ->
  findKey filename (before ++ key :: rest)%list = Resolved (Some key).
Proof.
  intros Hb Hk. induction before as [|k before IH]; simpl.
  - now rewrite Hk.
  - rewrite (Hb k) by now left. apply IH. intros k' Hk'. apply Hb. now right.
Qed.

Lemma findKey_none (filename : string) (keys : list string) :
  (forall k, In k keys -> keyMatches filename k = Resolved false) ->
  findKey filename keys = Resolved None.
Proof.
  induction keys as [|k keys IH]; simpl; intros H; [reflexivity|].
  rewrite (H k) by now left. apply IH. intros k' Hk'. apply H. now right.
Qed.

Lemma findKey_total (filename : string) (keys : list string) :
  (forall k, In k keys -> exists b, keyMatches filename k = Resolved b) ->
  exists found, findKey filename keys = Resolved found.
Proof.
  induction keys as [|k keys IH]; simpl; intros H; [now eexists|].
  destruct (H k) as [b Hb]; [now left|]. rewrite Hb. destruct b.
  - now eexists.
  - apply IH. intros k' Hk'. apply H. now right.
Qed.

Lemma lookup_first (key : string) (d : IconDescriptor)
    (before rest : list (string * IconDescriptor)) :
  ~ In key (List.map fst before) ->
  lookup key (before ++ (key, d) :: rest)%list = Some d.
Proof.
  induction before as [|[k d'] before IH]; simpl; intros H.
  - now rewrite String.eqb_refl.
  - destruct (String.eqb k key) eqn:E.
    + apply String.eqb_eq in E. exfalso. apply H. now left.
    + apply IH. intros Hin. apply H. now right.
Qed.

Lemma findLanguage_none (languageId : string) :
  (forall entry, In entry KNOWN_LANGUAGES -> language entry <> languageId) ->
  findLanguage languageId = None.
Proof.
  intros H. unfold findLanguage, JsArray.find.
  destruct (List.find _ KNOWN_LANGUAGES) as [entry|] eqn:E; [|reflexivity].
  apply List.find_some in E. destruct E as [Hin Heq].
  apply String.eqb_eq in Heq. now apply H in Hin.
Qed.

(** A key that is not a pattern, or whose pattern compiles, is tested
    without an exception. *)
Lemma keyMatches_total (filename key : string) :
  (forall source flags, regexKey key = Some (source, flags) ->
                        RegExp source flags <> None) ->
  exists b, keyMatches filename key = Resolved b.
Proof.
  intros H. unfold keyMatches.
  destruct (JsString.endsWith filename key); [now eexists|].
  destruct (regexKey key) as [[source flags]|]; [|now eexists].
  destruct (RegExp source flags) as [regex|] eqn:E; [now eexists|].
  exfalso. now apply (H source flags).
Qed.

(** A key that the filename neither ends with nor, as a pattern, matches. *)
Lemma keyMatches_false (filename key : string) :
  JsString.endsWith filename key = false ->
  (forall source flags, regexKey key = Some (source, flags) ->
     exists regex, RegExp source flags = Some regex /\ regex filename = false) ->
  keyMatches filename key = Resolved false.
Proof.
  intros He H. unfold keyMatches. rewrite He.
  destruct (regexKey key) as [[source flags]|]; [|reflexivity].
  destruct (H source flags eq_refl) as [regex [Hr Hf]]. now rewrite Hr, Hf.
Qed.

Lemma findKey_found (filename found : string) (keys : list string) :
  findKey filename keys = Resolved (Some found) ->
  In found keys /\ keyMatches filename found = Resolved true.
Proof.
  induction keys as [|k keys IH]; simpl; [discriminate|].
  destruct (keyMatches filename k) as [[|]|r] eqn:E; intros H.
  - injection H as <-. split; [now left | exact E].
  - destruct (IH H) as [Hin Hm]. split; [now right | exact Hm].
  - discriminate.
Qed.

Lemma findKey_not_none (filename key : string) (keys : list string) :
  In key keys -> keyMatches filename key = Resolved true ->
  findKey filename keys <> Resolved None.
Proof.
  induction keys as [|k keys IH]; simpl; [tauto|].
  intros [-> | Hin] Hm.
  - rewrite Hm. discriminate.
  - destruct (keyMatches filename k) as [[|]|r]; try discriminate. now apply IH.
Qed.

Lemma lookup_In (key : string) (table : list (string * IconDescriptor)) :
  In key (List.map fst table) ->
  exists d, lookup key table = Some d /\ In (key, d) table.
Proof.
  induction table as [|[k d] table IH]; simpl; [tauto|].
  intros H. destruct (String.eqb k key) eqn:E.
  - apply String.eqb_eq in E. subst k. exists d. split; [reflexivity | now left].
  - destruct H as [H | H]; [apply String.eqb_neq in E; congruence|].
    destruct (IH H) as [d' [Hl Hin]]. exists d'. split; [exact Hl | now right].
Qed.

(** In a table without an empty key whose patterns compile, a filename that
    ends with a key always gets the icon of a key that matches it (the first
    in table order), never the icon of the language. *)
Lemma filename_match_wins (w : World) (document : TextDocument) (p : Process)
    (key : string) :
  fst (getRepositoryIconAsync w p) = Resolved None ->
  In key (List.map fst KNOWN_EXTENSIONS) ->
  JsString.endsWith (basename (fileName document)) key = true ->
  ~ In "" (List.map fst KNOWN_EXTENSIONS) ->
  (forall k source flags,
      In k (List.map fst KNOWN_EXTENSIONS) ->
      regexKey k = Some (source, flags) -> RegExp source flags <> None) ->
  exists found descriptor,
    In (found, descriptor) KNOWN_EXTENSIONS
    /\ keyMatches (basename (fileName document)) found = Resolved true
    /\ fst (resolveFileIconAsync w document p) = Resolved (iconOf (Some descriptor)).
Proof.
  intros Hrepo Hin Hends Hempty Hcompile.
  assert (Hm : keyMatches (basename (fileName document)) key = Resolved true).
  { unfold keyMatches. now rewrite Hends. }
  destruct (findKey_total (basename (fileName document))
              (List.map fst KNOWN_EXTENSIONS)) as [[found|] Hfound].
  - intros k Hk. apply keyMatches_total. intros source flags. now apply Hcompile.
  - destruct (findKey_found _ _ _ Hfound) as [Hfin Hfm].
    destruct (lookup_In _ _ Hfin) as [d [Hl Hd]].
    exists found, d. split; [exact Hd|]. split; [exact Hfm|].
    rewrite resolveFileIconAsync_result, Hrepo. unfold staticFileIcon.
    rewrite Hfound. simpl truthyOpt.
    assert (Ht : JsString.truthy found = true).
    { apply truthy_true. intros ->. now apply Hempty. }
    now rewrite Ht, Hl.
  - exfalso. now apply (findKey_not_none _ _ _ Hin Hm).
Qed.

(** C8, amended.  When the repository icon is absent and the filename ends
    with a key of [KNOWN_EXTENSIONS] that is not empty and that no earlier
    key of the table matches, the result is the icon mapped for that key
    (the entry itself when it is a string, its [image] when it is a record),
    whatever the language identifier of the document and whatever
    [KNOWN_LANGUAGES] maps it to: the first key that matches wins, and a
    filename match goes before the language. *)
Theorem filename_before_language (w : World) (document : TextDocument) (p : Process)
    (key : string) (descriptor : IconDescriptor)
    (before rest : list (string * IconDescriptor)) :
  fst (getRepositoryIconAsync w p) = Resolved None ->
  KNOWN_EXTENSIONS = (before ++ (key, descriptor) :: rest)%list ->
  key <> "" ->
  JsString.endsWith (basename (fileName document)) key = true ->
  (forall k, In k (List.map fst before) ->
             keyMatches (basename (fileName document)) k = Resolved false) ->
  fst (resolveFileIconAsync w document p)
  = Resolved match descriptor with
             | IconKey icon => icon
             | IconRecord icon => icon
             end.
Proof.
  intros Hrepo Htable Hkey Hends Hbefore.
  rewrite resolveFileIconAsync_result, Hrepo.
  assert (Hm : keyMatches (basename (fileName document)) key = Resolved true).
  { unfold keyMatches. now rewrite Hends. }
  unfold staticFileIcon. rewrite Htable, List.map_app. simpl List.map.
  rewrite (findKey_first _ _ _ _ Hbefore Hm). simpl truthyOpt.
  apply truthy_true in Hkey. rewrite Hkey.
  rewrite lookup_first.
  - now destruct descriptor.
  - intros Hin. apply Hbefore in Hin. congruence.
Qed.

(** C9, amended.  [resolveFileIconAsync] returns a string for every document
    when [getRepositoryIconAsync] does not reject and the pattern keys of
    [KNOWN_EXTENSIONS] compile; and when the repository icon is absent, the
    filename matches no key (neither as a suffix nor as a pattern) and the
    language identifier matches no entry of [KNOWN_LANGUAGES], that string is
    ["text"]. *)
Theorem resolveFileIconAsync_returns_string (w : World) (document : TextDocument)
    (p : Process) :
  (forall r, fst (getRepositoryIconAsync w p) <> Rejected r) ->
  (forall key source flags,
      In key (List.map fst KNOWN_EXTENSIONS) ->
      regexKey key = Some (source, flags) -> RegExp source flags <> None) ->
  (exists icon, fst (resolveFileIconAsync w document p) = Resolved icon)
  /\ (fst (getRepositoryIconAsync w p) = Resolved None ->
      (forall key, In key (List.map fst KNOWN_EXTENSIONS) ->
         JsString.endsWith (basename (fileName document)) key = false
         /\ forall source flags regex,
              regexKey key = Some (source, flags) ->
              RegExp source flags = Some regex ->
              regex (basename (fileName document)) = false) ->
      (forall entry, In entry KNOWN_LANGUAGES ->
                     language entry <> languageId document) ->
      fst (resolveFileIconAsync w document p) = Resolved "text").
Proof.
  intros Hrepo Hcompile. rewrite resolveFileIconAsync_result. split.
  - assert (Hstatic : exists icon, staticFileIcon document = Resolved icon).
    { unfold staticFileIcon.
      destruct (findKey_total (basename (fileName document))
                  (List.map fst KNOWN_EXTENSIONS)) as [found Hfound].
      - intros k Hk. apply keyMatches_total. intros source flags.
        now apply Hcompile.
      - rewrite Hfound. now eexists. }
    destruct (fst (getRepositoryIconAsync w p)) as [[icon|]|r].
    + destruct (JsString.truthy icon); [now eexists | exact Hstatic].
    + exact Hstatic.
    + exfalso. now apply (Hrepo r).
  - intros Habsent Hkeys Hlang. rewrite Habsent.
    unfold staticFileIcon. rewrite findKey_none.
    + simpl. now rewrite (findLanguage_none _ Hlang).
    + intros k Hk. destruct (Hkeys k Hk) as [Hends Hpat].
      apply keyMatches_false; [exact Hends|].
      intros source flags Hkey.
      destruct (RegExp source flags) as [regex|] eqn:E.
      * exists regex. split; [reflexivity|]. now apply (Hpat source flags).
      * exfalso. now apply (Hcompile k source flags).
Qed.

End FileIcon.

(** ** The properties on the example worlds *)

Module Witnesses.

Import Examples.

(** C1 fails as stated: when [logo.a] is tracked too and stands before
    [logo.png], the glob [logo.*] accepts it first and the URL is the one of
    [logo.a]. *)
Lemma earlier_logo_wins :
  In "logo.png" (JsString.split "010" (JsString.trim logoListing))
  /\ matchedBy ["logo.*"] "logo.png" = true
  /\ fst (getRepositoryIconAsync (world logoListing "" ["logo.*"] None)
            (loaded sshUrl))
     = Resolved (Some "https://raw.host.com/org/repo/main/logo.a").
Proof.
  split; [right; now left|]. split; reflexivity.
Qed.

(** C1, amended, on a listing where an accepted file of a subdirectory
    stands before [logo.png]. *)
Lemma ssh_remote_logo_witness :
  matchedBy ["img/*"; "logo.*"] "img/banner.png" = true
  /\ fst (getRepositoryIconAsync
            (world bannerListing "" ["img/*"; "logo.*"] None) (loaded sshUrl))
     = Resolved (Some "https://raw.host.com/org/repo/main/logo.png").
Proof.
  split; [reflexivity|].
  apply (ssh_remote_logo
           (world bannerListing "" ["img/*"; "logo.*"] None) (loaded sshUrl)
           (api (Some sshUrl)) (repository (Some sshUrl))
           {| name := Some "main"; commit := Some "0a1b2c3" |}
           {| fetchUrl := Some sshUrl |} []
           bannerListing
           (GlobFragment.matches
              [GlobFragment.Literal "l"; GlobFragment.Literal "o";
               GlobFragment.Literal "g"; GlobFragment.Literal "o";
               GlobFragment.Literal "."; GlobFragment.Segment])
           ["img/banner.png"] ["src/main.ts"]);
    try reflexivity.
  - discriminate.
  - intros glob [<- | [<- | []]]; vm_compute; discriminate.
  - right. now left.
  - intros file [<- | []] _. vm_compute. lia.
Defined.

(** C2 on a repository whose only remote has no fetch URL. *)
Lemma getRepositoryIconAsync_absent_witness :
  getRepositoryIconAsync (world "logo.png" "" ["logo.*"] None)
    {| git := Loaded (api None); journal := [] |}
  = (Resolved None, {| git := Loaded (api None); journal := [] |}).
Proof.
  apply getRepositoryIconAsync_absent.
  right. right. exists (api None). split; [reflexivity|].
  do 4 right. exists (repository None). split; [reflexivity|].
  right. intros remote [<- | []]. reflexivity.
Defined.

(** C3 on the listing [a/b/icon.png], [icon.png] and the glob
    [**/icon.png], which accepts both. *)
Lemma shallowest_match_selected_witness :
  matchedBy ["**/icon.png"] "a/b/icon.png" = true
  /\ matchedBy ["**/icon.png"] "icon.png" = true
  /\ fst (getRepositoryIconAsync (world twoIcons "" ["**/icon.png"] None)
            (loaded sshUrl))
     = Resolved (Some "https://raw.host.com/org/repo/main/icon.png").
Proof.
  split; [reflexivity|]. split; [reflexivity|].
  refine (proj2 (proj2 (proj2
            (shallowest_match_selected
               (world twoIcons "" ["**/icon.png"] None) (loaded sshUrl)
               (api (Some sshUrl)) (repository (Some sshUrl))
               "main" sshUrl twoIcons
               eq_refl eq_refl _ eq_refl eq_refl _ eq_refl _
               eq_refl eq_refl eq_refl _)))
            "icon.png" _ eq_refl _).
  - discriminate.
  - discriminate.
  - discriminate.
  - intros glob [<- | []]. vm_compute. discriminate.
  - right. now left.
  - intros other Hin _ Hne. vm_compute in Hin.
    destruct Hin as [<- | [<- | []]].
    + vm_compute. lia.
    + now elim Hne.
Defined.


(** C6 fails as stated: a command that ends with a failure status after
    writing to its error stream makes the callback report an error, and
    [execute] then rejects without a value, not with the error stream. *)
Lemma execute_error_hides_stream :
  standardError (exec (failingWorld "fatal: not a git repository")
                   "git ls-files" "/tmp")
  = "fatal: not a git repository"
  /\ fst (execute (failingWorld "fatal: not a git repository")
            "git ls-files" "/tmp" fresh)
     = Rejected NoValue
  /\ fst (execute (failingWorld "fatal: not a git repository")
            "git ls-files" "/tmp" fresh)
     <> Rejected (ErrorStream "fatal: not a git repository").
Proof.
  repeat split. discriminate.
Qed.

(** C6, amended, on a command that prints a file name, on one that also
    warns, and on one that cannot be started. *)
Lemma execute_settles_witness :
  fst (execute (world "logo.png" "" [] None) "git ls-files" root fresh)
  = Resolved "logo.png"
  /\ fst (execute (world "logo.png" "warning: slow" [] None) "git ls-files" root fresh)
     = Rejected (ErrorStream "warning: slow")
  /\ fst (execute (world "logo.png" "" [] None) "git" root fresh)
     = Rejected NoValue.
Proof.
  split; [|split].
  - apply (proj1 (execute_settles (world "logo.png" "" [] None)
                    "git ls-files" root fresh)); reflexivity.
  - apply (proj2 (proj2 (execute_settles (world "logo.png" "warning: slow" [] None)
                           "git ls-files" root fresh)));
      [reflexivity | discriminate].
  - apply (proj1 (proj2 (execute_settles (world "logo.png" "" [] None)
                           "git" root fresh))).
    discriminate.
Defined.



(** C8 fails as stated: the name [index.d.ts] ends with the key [.ts],
    which is mapped to [ts], but the key [.d.ts] comes first in the table
    and gives the icon. *)
Lemma earlier_key_wins :
  JsString.endsWith (basename (fileName indexDts)) ".ts" = true
  /\ lookup ".ts" KNOWN_EXTENSIONS = Some (IconRecord "ts")
  /\ fst (resolveFileIconAsync (world "" "" [] None) indexDts fresh)
     = Resolved "typescript-def".
Proof.
  repeat split.
Qed.

(** C8, amended: [index.ts] gets the icon of the key [.ts] and [README.md]
    the plain string of the key [.md], though their language identifiers
    map to other icons. *)
Lemma filename_before_language_witness :
  option_map image (findLanguage (languageId indexTs)) = Some (IconKey "typescript")
  /\ fst (resolveFileIconAsync (world "" "" [] None) indexTs fresh) = Resolved "ts"
  /\ option_map image (findLanguage (languageId readme)) = Some (IconRecord "python")
  /\ fst (resolveFileIconAsync (world "" "" [] None) readme fresh)
     = Resolved "markdown".
Proof.
  split; [reflexivity|]. split; [|split; [reflexivity|]].
  - apply (filename_before_language (world "" "" [] None) indexTs fresh
             ".ts" (IconRecord "ts")
             [(".d.ts", IconRecord "typescript-def")]
             [("/Dockerfile/g", IconRecord "docker"); (".md", IconKey "markdown")]);
      try reflexivity.
    + discriminate.
    + intros k [<- | []]. reflexivity.
  - apply (filename_before_language (world "" "" [] None) readme fresh
             ".md" (IconKey "markdown")
             [(".d.ts", IconRecord "typescript-def"); (".ts", IconRecord "ts");
              ("/Dockerfile/g", IconRecord "docker")]
             []);
      try reflexivity.
    + discriminate.
    + intros k [<- | [<- | [<- | []]]]; reflexivity.
Defined.

(** C9 fails as stated: when [git ls-files] writes to its error stream,
    [execute] rejects, the rejection passes through [getRepositoryIconAsync]
    and [resolveFileIconAsync] rejects instead of returning a string. *)
Lemma resolveFileIconAsync_rejects :
  fst (resolveFileIconAsync
         (world "logo.png" "warning: could not open directory" ["logo.*"] None)
         notes (loaded sshUrl))
  = Rejected (ErrorStream "warning: could not open directory").
Proof.
  vm_compute. reflexivity.
Qed.

(** C9, amended: [notes.xyz] in an unknown language gets ["text"]. *)
Lemma resolveFileIconAsync_returns_string_witness :
  fst (resolveFileIconAsync (world "" "" [] None) notes fresh) = Resolved "text".
Proof.
  apply (proj2 (resolveFileIconAsync_returns_string (world "" "" [] None) notes fresh
                  ltac:(intros r; vm_compute; discriminate)
                  ltac:(intros key source flags Hin; vm_compute in Hin;
                        destruct Hin as [<- | [<- | [<- | [<- | []]]]];
                        vm_compute; intros H; try discriminate H;
                        injection H as <- <-; discriminate))).
  - reflexivity.
  - intros key Hin. vm_compute in Hin.
    destruct Hin as [<- | [<- | [<- | [<- | []]]]];
      (split; [reflexivity|]); intros source flags regex H;
      try discriminate H.
    vm_compute in H. injection H as <- <-.
    intros H. vm_compute in H. injection H as <-. reflexivity.
  - intros entry [<- | [<- | []]]; discriminate.
Defined.

(** C10: before any call of [getGit] the resolver does nothing and the
    file icon comes from the tables. *)
Lemma getRepositoryIconAsync_never_loads_witness :
  getRepositoryIconAsync (world "logo.png" "" ["logo.*"] None) fresh
  = (Resolved None, fresh)
  /\ resolveFileIconAsync (world "logo.png" "" ["logo.*"] None) indexTs fresh
     = (Resolved "ts", fresh).
Proof.
  destruct (getRepositoryIconAsync_never_loads
              (world "logo.png" "" ["logo.*"] None) fresh) as [_ [_ H]].
  destruct (H eq_refl) as [H1 H2]. split; [exact H1|]. exact (H2 indexTs).
Defined.

End Witnesses.

(** * Further properties *)

(** ** The accessor: loading, caching and its calls to the outside *)

Section Accessor.

Lemma getGit_loads (w : World) (p : Process) (e : Extension) (api : API.t) :
  git p = Undefined ->
  getExtension w "vscode.git" = Some e ->
  isActive e = true \/ activate e = Resolved tt ->
  getAPI e 1 = Resolved api ->
  fst (getGit w p) = Resolved (Loaded api) /\ git (snd (getGit w p)) = Loaded api.
Proof.
  intros Hg He Hact Hapi. unfold getGit. async_unfold.
  rewrite Hg. simpl. rewrite He.
  destruct Hact as [Ha | Ha].
  - rewrite Ha. simpl. rewrite Hapi. simpl. split; reflexivity.
  - destruct (isActive e); simpl.
    + rewrite Hapi. simpl. split; reflexivity.
    + rewrite Ha. simpl. rewrite Hapi. simpl. split; reflexivity.
Qed.


(** X2.  A missing extension is not remembered: the call returns
    [undefined], and a later call made when the extension is there loads
    it. *)
Theorem missing_extension_is_retried (w1 w2 : World) (p : Process)
    (e : Extension) (api : API.t) :
  git p = Undefined ->
  getExtension w1 "vscode.git" = None ->
  getExtension w2 "vscode.git" = Some e ->
  isActive e = true \/ activate e = Resolved tt ->
  getAPI e 1 = Resolved api ->
  fst (getGitCalls [w1; w2] p) = [Resolved Undefined; Resolved (Loaded api)].
Proof.
  intros Hg H1 H2 Hact Hapi. simpl.
  destruct (getGit_missing_extension w1 p Hg H1) as [Hr Hs].
  destruct (getGit w1 p) as [r1 p1] eqn:E1. simpl in Hr, Hs. subst r1.
  destruct (getGit_loads w2 p1 e api Hs H2 Hact Hapi) as [Hr2 _].
  destruct (getGit w2 p1) as [r2 p2]. simpl in Hr2. subst r2. reflexivity.
Qed.

(** X3.  A call whose activation rejects, or whose [getAPI] throws, with
    the reason [r], writes one message of level [Error] that ends with the
    text of [r], as the last entry of the journal, and returns [null]. *)
Theorem getGit_failure_is_logged (w : World) (p : Process) (e : Extension)
    (r : Reason) :
  git p = Undefined ->
  getExtension w "vscode.git" = Some e ->
  (isActive e = false /\ activate e = Rejected r)
  \/ ((isActive e = true \/ activate e = Resolved tt) /\ getAPI e 1 = Rejected r) ->
  fst (getGit w p) = Resolved Null
  /\ exists effects,
       journal (snd (getGit w p))
       = (journal p ++ effects
          ++ [Log Error ("Failed to load git extension, is git installed?; "
                         ++ reasonText r)])%list
       /\ forall level message, In (Log level message) effects -> level <> Error.
Proof.
  intros Hg He Hthrow. unfold getGit. async_unfold.
  rewrite Hg. simpl. rewrite He.
  destruct Hthrow as [[Hact Hr] | [[Hact | Hact] Hr]].
  - rewrite Hact, Hr. simpl. split; [reflexivity|].
    exists [Log Debug "Loading git extension"; GetExtension "vscode.git";
            Log Trace "Git extension not activated, activating..."; Activate].
    split.
    + rewrite <- !List.app_assoc. reflexivity.
    + simpl. intros level message H.
      repeat (destruct H as [H | H]; [inversion H; discriminate|]). contradiction.
  - rewrite Hact. simpl. rewrite Hr. simpl. split; [reflexivity|].
    exists [Log Debug "Loading git extension"; GetExtension "vscode.git"; GetAPI 1].
    split.
    + rewrite <- !List.app_assoc. reflexivity.
    + simpl. intros level message H.
      repeat (destruct H as [H | H]; [inversion H; discriminate|]). contradiction.
  - destruct (isActive e); simpl.
    + rewrite Hr. simpl. split; [reflexivity|].
      exists [Log Debug "Loading git extension"; GetExtension "vscode.git"; GetAPI 1].
      split.
      * rewrite <- !List.app_assoc. reflexivity.
      * simpl. intros level message H.
        repeat (destruct H as [H | H]; [inversion H; discriminate|]). contradiction.
    + rewrite Hact. simpl. rewrite Hr. simpl. split; [reflexivity|].
      exists [Log Debug "Loading git extension"; GetExtension "vscode.git";
              Log Trace "Git extension not activated, activating..."; Activate;
              GetAPI 1].
      split.
      * rewrite <- !List.app_assoc. reflexivity.
      * simpl. intros level message H.
        repeat (destruct H as [H | H]; [inversion H; discriminate|]). contradiction.
Qed.

(** X4.  [getGit] never runs a command, it asks the extension host for
    [vscode.git] and no other extension, and it does not activate an
    extension that is already active. *)
Theorem getGit_calls (w : World) (p : Process) :
  exists effects,
    journal (snd (getGit w p)) = (journal p ++ effects)%list
    /\ (forall command cwd, ~ In (Exec command cwd) effects)
    /\ (forall id, In (GetExtension id) effects -> id = "vscode.git")
    /\ (forall e, getExtension w "vscode.git" = Some e -> isActive e = true ->
                  ~ In Activate effects).
Proof.
  unfold getGit. async_unfold.
  destruct (cached (git p)) eqn:Hc.
  - exists []. simpl. rewrite List.app_nil_r. repeat split; auto.
    intros id [].
  - simpl.
    destruct (getExtension w "vscode.git") as [e|] eqn:He;
      [destruct (isActive e) eqn:Ha;
       [|destruct (activate e) as [[]|ra]]; simpl;
       try (destruct (getAPI e 1) as [api|rg]; simpl)|simpl];
      eexists; (split; [rewrite <- ?List.app_assoc; simpl; reflexivity|]);
      (split; [|split]); simpl;
      try (intros command cwd H;
           repeat (destruct H as [H | H]; [discriminate|]); contradiction);
      try (intros id H;
           repeat (destruct H as [H | H];
                   [try discriminate; now inversion H|]); contradiction);
      try (intros e' He' Ha' H; inversion He'; subst e';
           try congruence;
           repeat (destruct H as [H | H]; [discriminate|]); contradiction).
Qed.

End Accessor.

(** ** The repository icon resolver: when it returns a URL, when it rejects *)

Section Soundness.

Context {imports : Imports}.

Lemma selectRepository_inWorkspace (w : World) (api : API.t) (repo : Repository.t) :
  selectRepository w api = Some repo ->
  In repo (API.repositories api) /\ inWorkspace w repo = true.
Proof.
  unfold selectRepository, JsArray.find. apply List.find_some.
Qed.

Lemma find_In_test (A : Type) (test : A -> bool) (xs : list A) (x : A) :
  List.find test xs = Some x -> In x xs /\ test x = true.
Proof. apply List.find_some. Qed.

(** A URL comes out only past every guard, for a tracked file that a
    configured glob accepts. *)
Lemma getRepositoryIconAsync_some (w : World) (p : Process) (u : string) :
  fst (getRepositoryIconAsync w p) = Resolved (Some u) ->
  exists api repo branchName url output file,
    git p = Loaded api
    /\ API.state api = "initialized"
    /\ workspaceFolders w <> None
    /\ selectRepository w api = Some repo
    /\ branchNameOf repo = Some branchName /\ branchName <> ""
    /\ fetchUrlOf repo = Some url /\ url <> ""
    /\ executeCallback (exec w "git ls-files" (path (Repository.rootUri repo)))
       = Resolved output
    /\ In file (JsString.split "010" (JsString.trim output))
    /\ matchedBy (bigImageFilePaths w) file = true
    /\ u = iconUrl (normalizeUrl url) branchName file
    /\ snd (getRepositoryIconAsync w p)
       = {| git := git p;
            journal := (journal p ++ [Exec "git ls-files"
                                        (path (Repository.rootUri repo))])%list |}.
Proof.
  destruct (git p) as [| |api] eqn:Hg.
  - rewrite getRepositoryIconAsync_unloaded by auto. discriminate.
  - rewrite getRepositoryIconAsync_unloaded by auto. discriminate.
  - rewrite (getRepositoryIconAsync_loaded w p api Hg).
    destruct (negb (String.eqb (API.state api) "initialized")) eqn:Hs;
      [simpl; discriminate|].
    destruct (Nat.eqb (List.length (API.repositories api)) 0) eqn:Hn;
      [simpl; discriminate|].
    destruct (workspaceFolders w) as [folders|] eqn:Hw; [|simpl; discriminate].
    simpl.
    destruct (selectRepository w api) as [repo|] eqn:Hsel; [|simpl; discriminate].
    destruct (branchNameOf repo) as [branchName|] eqn:Hb; [|simpl; discriminate].
    destruct (fetchUrlOf repo) as [url|] eqn:Hu; [|simpl; discriminate].
    destruct (JsString.truthy branchName) eqn:Htb; [|simpl; discriminate].
    destruct (JsString.truthy url) eqn:Htu; [|simpl; discriminate].
    simpl.
    destruct (executeCallback _) as [output|r] eqn:He; [|simpl; discriminate].
    destruct (compileGlobs (bigImageFilePaths w)) as [regexes|r] eqn:Hc;
      [|simpl; discriminate].
    simpl. rewrite scan_find. intros H.
    destruct (List.find _ (trackedFilesOf output)) as [file|] eqn:Hf;
      [|discriminate].
    simpl in H. injection H as <-.
    apply find_In_test in Hf. destruct Hf as [Hin Hm].
    rewrite (compileGlobs_matchedBy _ _ Hc) in Hm.
    apply trackedFilesOf_In in Hin.
    apply negb_false_iff, String.eqb_eq in Hs.
    apply truthy_true in Htb, Htu.
    exists api, repo, branchName, url, output, file.
    repeat (split; [first [assumption | reflexivity | discriminate]|]).
    now rewrite Hg.
Qed.

Lemma iconUrl_not_empty (url branchName file : string) :
  iconUrl url branchName file <> "".
Proof.
  unfold iconUrl.
  destruct (JsString.replace "https://" "https://raw." url); discriminate.
Qed.

(** X5.  The resolver returns a URL only when the integration is loaded and
    initialized, a workspace folder is open, a repository of the workspace
    has a non-empty reference and a non-empty fetch URL, [git ls-files] ran
    at its root without error output, and the URL is the one built for a
    tracked file that a configured glob accepts; that command is then the
    one effect of the call. *)
Theorem icon_url_sound (w : World) (p : Process) (u : string) :
  fst (getRepositoryIconAsync w p) = Resolved (Some u) ->
  exists api repo branchName url,
    git p = Loaded api
    /\ API.state api = "initialized"
    /\ workspaceFolders w <> None
    /\ In repo (API.repositories api) /\ inWorkspace w repo = true
    /\ branchNameOf repo = Some branchName /\ branchName <> ""
    /\ fetchUrlOf repo = Some url /\ url <> ""
    /\ error (exec w "git ls-files" (path (Repository.rootUri repo))) = None
    /\ standardError (exec w "git ls-files" (path (Repository.rootUri repo))) = ""
    /\ (exists file,
          In file (JsString.split "010"
                     (JsString.trim
                        (standardOutput
                           (exec w "git ls-files" (path (Repository.rootUri repo))))))
          /\ matchedBy (bigImageFilePaths w) file = true
          /\ u = iconUrl (normalizeUrl url) branchName file)
    /\ journal (snd (getRepositoryIconAsync w p))
       = (journal p ++ [Exec "git ls-files" (path (Repository.rootUri repo))])%list.
Proof.
  intros H.
  destruct (getRepositoryIconAsync_some w p u H)
    as (api & repo & branchName & url & output & file
        & Hg & Hs & Hw & Hsel & Hb & Hbn & Hu & Hun & He & Hin & Hm & Hurl & Hj).
  destruct (selectRepository_inWorkspace w api repo Hsel) as [Hrin Hrw].
  unfold executeCallback in He.
  destruct (error (exec w "git ls-files" (path (Repository.rootUri repo))))
    as [err|] eqn:Herr; [discriminate|].
  destruct (JsString.truthy
              (standardError (exec w "git ls-files" (path (Repository.rootUri repo)))))
    eqn:Hq; [discriminate|].
  injection He as Hout. apply truthy_false in Hq.
  exists api, repo, branchName, url.
  repeat (split; [assumption|]).
  split.
  - exists file. rewrite Hout. auto.
  - rewrite Hj. reflexivity.
Qed.

(** X6.  With no glob configured the resolver never returns a URL. *)
Theorem no_glob_no_icon (w : World) (p : Process) :
  bigImageFilePaths w = [] ->
  forall u, fst (getRepositoryIconAsync w p) <> Resolved (Some u).
Proof.
  intros Hempty u H.
  destruct (getRepositoryIconAsync_some w p u H)
    as (api & repo & branchName & url & output & file
        & _ & _ & _ & _ & _ & _ & _ & _ & _ & _ & Hm & _).
  rewrite Hempty in Hm. discriminate.
Qed.

(** X7.  A repository icon is the icon of every document: when the resolver
    returns a URL, [resolveFileIconAsync] returns that URL whatever the file
    name and the language of the document are. *)
Theorem repository_icon_overrides (w : World) (p : Process) (u : string) :
  fst (getRepositoryIconAsync w p) = Resolved (Some u) ->
  forall document, fst (resolveFileIconAsync w document p) = Resolved u.
Proof.
  intros H document. rewrite resolveFileIconAsync_result, H.
  destruct (getRepositoryIconAsync_some w p u H)
    as (api & repo & branchName & url & output & file
        & _ & _ & _ & _ & _ & _ & _ & _ & _ & _ & _ & Hurl & _).
  assert (Ht : JsString.truthy u = true).
  { apply truthy_true. rewrite Hurl. apply iconUrl_not_empty. }
  now rewrite Ht.
Qed.

End Soundness.

Section PastTheGuards.

Context {imports : Imports}.

Variables (w : World) (p : Process) (api : API.t) (repo : Repository.t).
Variables (branchName url : string).

Hypothesis git_loaded : git p = Loaded api.
Hypothesis git_initialized : API.state api = "initialized".
Hypothesis folders_open : workspaceFolders w <> None.
Hypothesis repo_selected : selectRepository w api = Some repo.
Hypothesis repo_branch : branchNameOf repo = Some branchName.
Hypothesis branch_not_empty : branchName <> "".
Hypothesis repo_url : fetchUrlOf repo = Some url.
Hypothesis url_not_empty : url <> "".

(** Past the guards the result is decided by the command and the globs. *)
Lemma past_the_guards :
  fst (getRepositoryIconAsync w p)
  = match executeCallback (exec w "git ls-files" (path (Repository.rootUri repo))) with
    | Resolved output =>
        match compileGlobs (bigImageFilePaths w) with
        | Resolved regexes =>
            Resolved (scan regexes (normalizeUrl url) branchName (trackedFilesOf output))
        | Rejected r => Rejected r
        end
    | Rejected r => Rejected r
    end.
Proof.
  rewrite (getRepositoryIconAsync_loaded w p api git_loaded).
  rewrite git_initialized.
  rewrite (selected_not_empty w api repo repo_selected). simpl.
  destruct (workspaceFolders w) as [folders|]; [|congruence].
  rewrite repo_selected, repo_branch, repo_url.
  apply truthy_true in branch_not_empty, url_not_empty.
  rewrite branch_not_empty, url_not_empty. simpl.
  destruct (executeCallback _) as [output|r]; [|reflexivity].
  now destruct (compileGlobs (bigImageFilePaths w)).
Qed.

(** X8.  A failure of [git ls-files] is a failure of both resolvers: when
    the callback reports an error they reject without a value, and when it
    reports none but the error stream is not empty they reject with the
    error stream; no file icon is returned in either case. *)
Theorem command_failure_rejects (document : TextDocument) :
  (error (exec w "git ls-files" (path (Repository.rootUri repo))) <> None ->
   fst (getRepositoryIconAsync w p) = Rejected NoValue
   /\ fst (resolveFileIconAsync w document p) = Rejected NoValue)
  /\ (error (exec w "git ls-files" (path (Repository.rootUri repo))) = None ->
      standardError (exec w "git ls-files" (path (Repository.rootUri repo))) <> "" ->
      fst (getRepositoryIconAsync w p)
      = Rejected (ErrorStream
                    (standardError
                       (exec w "git ls-files" (path (Repository.rootUri repo)))))
      /\ fst (resolveFileIconAsync w document p)
         = Rejected (ErrorStream
                       (standardError
                          (exec w "git ls-files" (path (Repository.rootUri repo)))))).
Proof.
  rewrite resolveFileIconAsync_result, past_the_guards. unfold executeCallback.
  split.
  - intros Herr.
    destruct (error (exec w "git ls-files" (path (Repository.rootUri repo))));
      [split; reflexivity | congruence].
  - intros Herr Hnoisy. rewrite Herr.
    apply truthy_true in Hnoisy. rewrite Hnoisy. split; reflexivity.
Qed.

Lemma compileGlobs_fails (filePaths : list string) (glob : string) :
  In glob filePaths -> GlobToRegExp glob = None ->
  compileGlobs filePaths = Rejected (Thrown "SyntaxError").
Proof.
  induction filePaths as [|filePath rest IH]; simpl; [tauto|].
  intros [-> | Hin] Hg.
  - now rewrite Hg.
  - destruct (GlobToRegExp filePath); [|reflexivity].
    now rewrite (IH Hin Hg).
Qed.

(** X9.  All the globs are compiled before any file is tested: when the
    command succeeds and one configured glob does not compile, the resolver
    rejects, whatever the other globs accept. *)
Theorem bad_glob_rejects (glob : string) :
  error (exec w "git ls-files" (path (Repository.rootUri repo))) = None ->
  standardError (exec w "git ls-files" (path (Repository.rootUri repo))) = "" ->
  In glob (bigImageFilePaths w) ->
  GlobToRegExp glob = None ->
  fst (getRepositoryIconAsync w p) = Rejected (Thrown "SyntaxError").
Proof.
  intros Herr Hquiet Hin Hglob. rewrite past_the_guards. unfold executeCallback.
  rewrite Herr. apply truthy_false in Hquiet. rewrite Hquiet.
  now rewrite (compileGlobs_fails _ glob Hin Hglob).
Qed.

End PastTheGuards.

(** ** The order of the tracked files: ties and the empty listing *)

Lemma trimStart_whitespace (s : string) :
  JsString.all JsString.isWhiteSpace s = true -> JsString.trimStart s = "".
Proof.
  induction s as [|c s IH]; simpl; [reflexivity|].
  intros H. apply andb_true_iff in H. destruct H as [Hc Hs].
  rewrite Hc. now apply IH.
Qed.

Section Ties.

Context {imports : Imports}.

Variables (w : World) (p : Process) (api : API.t) (repo : Repository.t).
Variables (branchName url output : string).

Hypothesis git_loaded : git p = Loaded api.
Hypothesis git_initialized : API.state api = "initialized".
Hypothesis folders_open : workspaceFolders w <> None.
Hypothesis repo_selected : selectRepository w api = Some repo.
Hypothesis repo_branch : branchNameOf repo = Some branchName.
Hypothesis branch_not_empty : branchName <> "".
Hypothesis repo_url : fetchUrlOf repo = Some url.
Hypothesis url_not_empty : url <> "".
Hypothesis command_ran :
  error (exec w "git ls-files" (path (Repository.rootUri repo))) = None.
Hypothesis command_quiet :
  standardError (exec w "git ls-files" (path (Repository.rootUri repo))) = "".
Hypothesis command_output :
  standardOutput (exec w "git ls-files" (path (Repository.rootUri repo))) = output.
Hypothesis globs_compile :
  forall glob, In glob (bigImageFilePaths w) -> GlobToRegExp glob <> None.

Lemma first_match :
  fst (getRepositoryIconAsync w p)
  = Resolved
      (option_map (iconUrl (normalizeUrl url) branchName)
         (List.find (matchedBy (bigImageFilePaths w)) (trackedFilesOf output))).
Proof.
  now apply (resolves_to_first_match w p api repo).
Qed.

(** X10.  Among the accepted files of the least depth the first of the
    listing is selected: the sort keeps files of equal depth in the order
    in which [git ls-files] printed them. *)
Theorem equal_depth_keeps_listing_order (file : string) (before rest : list string) :
  JsString.split "010" (JsString.trim output) = (before ++ file :: rest)%list ->
  matchedBy (bigImageFilePaths w) file = true ->
  (forall other,
      In other (JsString.split "010" (JsString.trim output)) ->
      matchedBy (bigImageFilePaths w) other = true ->
      (segments file <= segments other)%nat) ->
  (forall other,
      In other before ->
      matchedBy (bigImageFilePaths w) other = true ->
      segments other <> segments file) ->
  fst (getRepositoryIconAsync w p)
  = Resolved (Some (iconUrl (normalizeUrl url) branchName file)).
Proof.
  intros Hlist Hm Hleast Hbefore. rewrite first_match.
  assert (Hin : In file (JsString.split "010" (JsString.trim output))).
  { rewrite Hlist. apply List.in_or_app. right. now left. }
  destruct (List.find (matchedBy (bigImageFilePaths w)) (trackedFilesOf output))
    as [g|] eqn:E.
  - destruct (first_match_shallowest _ _ _ E) as [Hgin [Hgm Hgle]].
    assert (Hd : segments g = segments file).
    { specialize (Hgle file Hin Hm). specialize (Hleast g Hgin Hgm).
      unfold shallower in Hgle. lia. }
    pose proof (find_level_of_test _ (segments file) _ g E Hd) as Hl.
    unfold trackedFilesOf in Hl. rewrite find_sort_level, Hlist in Hl.
    rewrite (find_level_first _ (segments file) before rest file Hbefore Hm eq_refl)
      in Hl.
    injection Hl as <-. reflexivity.
  - exfalso.
    assert (Hf : matchedBy (bigImageFilePaths w) file = false).
    { apply (List.find_none _ _ E). now apply trackedFilesOf_In. }
    congruence.
Qed.

(** X11.  When [git ls-files] prints nothing (or white space only) the
    list of tracked files is not empty: it holds the empty path, and a glob
    that accepts the empty path gives a URL that ends with the branch and a
    [/]. *)
Theorem empty_listing_holds_empty_path :
  JsString.all JsString.isWhiteSpace output = true ->
  trackedFilesOf output = [""]
  /\ fst (getRepositoryIconAsync w p)
     = Resolved (if matchedBy (bigImageFilePaths w) ""
                 then Some (JsString.replace "https://" "https://raw." (normalizeUrl url)
                            ++ "/" ++ branchName ++ "/")
                 else None).
Proof.
  intros Hws.
  assert (Ht : trackedFilesOf output = [""]).
  { unfold trackedFilesOf, JsString.trim.
    now rewrite (trimStart_whitespace output Hws). }
  split; [exact Ht|].
  rewrite first_match, Ht. simpl.
  now destruct (matchedBy (bigImageFilePaths w) "").
Qed.

End Ties.

(** ** The rewriting of the fetch URL: the usual forms *)

Section UrlForms.

Lemma prefix_cons (c d : ascii) (pat s : string) :
  String.prefix (String c pat) (String d s) = Ascii.eqb c d && String.prefix pat s.
Proof.
  change (String.prefix (String c pat) (String d s))
    with (if ascii_dec c d then String.prefix pat s else false).
  destruct (ascii_dec c d) as [-> | Hne].
  - now rewrite Ascii.eqb_refl.
  - apply Ascii.eqb_neq in Hne. now rewrite Hne.
Qed.

Lemma prefix_empty (s : string) : String.prefix "" s = true.
Proof. now destruct s. Qed.

Lemma includes_cons (c : ascii) (s pat : string) :
  JsString.includes (String c s) pat
  = String.prefix pat (String c s) || JsString.includes s pat.
Proof. reflexivity. Qed.

Lemma replace_cons (pat rep : string) (c : ascii) (s : string) :
  JsString.replace pat rep (String c s)
  = if String.prefix pat (String c s)
    then rep ++ JsString.drop (String.length pat) (String c s)
    else String c (JsString.replace pat rep s).
Proof. reflexivity. Qed.

(** Where the pattern does not occur, [replace] changes nothing. *)
Lemma replace_absent (pat rep s : string) :
  JsString.includes s pat = false -> JsString.replace pat rep s = s.
Proof.
  induction s as [|c s IH].
  - simpl. intros H. apply orb_false_iff in H. destruct H as [H _]. now rewrite H.
  - rewrite includes_cons, replace_cons. intros H.
    apply orb_false_iff in H. destruct H as [Hp Hi].
    rewrite Hp. now rewrite (IH Hi).
Qed.

Lemma replace_first_char (c : ascii) (rep before rest : string) :
  JsString.contains c before = false ->
  JsString.replace (String c "") rep (before ++ String c rest) = before ++ rep ++ rest.
Proof.
  induction before as [|d before IH]; intros H.
  - change ("" ++ String c rest) with (String c rest).
    rewrite replace_cons, prefix_cons, Ascii.eqb_refl, prefix_empty. reflexivity.
  - simpl in H. apply orb_false_iff in H. destruct H as [Hd Hb].
    change (String d before ++ String c rest) with (String d (before ++ String c rest)).
    rewrite replace_cons, prefix_cons, Ascii.eqb_sym, Hd. simpl.
    now rewrite (IH Hb).
Qed.

Lemma after_none (c : ascii) (s : string) :
  JsString.contains c s = false -> JsString.after c s = None.
Proof.
  induction s as [|d s IH]; simpl; [reflexivity|].
  intros H. apply orb_false_iff in H. destruct H as [Hd Hs].
  rewrite Hd. now apply IH.
Qed.

Lemma contains_drop (c : ascii) (n : nat) (s : string) :
  JsString.contains c s = false -> JsString.contains c (JsString.drop n s) = false.
Proof.
  revert s. induction n as [|n IH]; intros s H; [exact H|].
  destruct s as [|d s]; [reflexivity|].
  simpl in H. apply orb_false_iff in H. destruct H as [_ Hs].
  simpl. now apply IH.
Qed.

(** Without an [@] there are no credentials to strip. *)
Lemma stripCredentials_no_at (s : string) :
  JsString.contains "@" s = false -> stripCredentials s = s.
Proof.
  induction s as [|c s IH]; intros H; rewrite stripCredentials_eq.
  - unfold credentialsAt. now destruct (JsString.startsWith "" "https://").
  - assert (Hnone : credentialsAt (String c s) = None).
    { unfold credentialsAt.
      destruct (JsString.startsWith (String c s) "https://"); [|reflexivity].
      now rewrite (after_none _ _ (contains_drop "@" 8 _ H)). }
    rewrite Hnone. simpl in H. apply orb_false_iff in H. destruct H as [_ Hs].
    now rewrite (IH Hs).
Qed.

Lemma prefix_git_app (s : string) :
  s <> "" -> String.prefix ".git" (s ++ ".git") = String.prefix ".git" s.
Proof.
  destruct s as [|c1 [|c2 [|c3 [|c4 s]]]]; intros H; [congruence| | | |];
    simpl append; rewrite !prefix_cons; simpl;
    rewrite ?prefix_empty, ?andb_false_r; reflexivity.
Qed.

(** A [.git] at the end is removed when there is none before it. *)
Lemma removeDotGit_suffix (base : string) :
  JsString.includes base ".git" = false -> removeDotGit (base ++ ".git") = base.
Proof.
  unfold removeDotGit. induction base as [|c base IH]; intros H.
  - reflexivity.
  - change (String c base ++ ".git") with (String c (base ++ ".git")).
    rewrite replace_cons.
    change (String c (base ++ ".git")) with (String c base ++ ".git").
    rewrite prefix_git_app by discriminate.
    rewrite includes_cons in H. apply orb_false_iff in H. destruct H as [Hp Hi].
    rewrite Hp. now rewrite (IH Hi).
Qed.

Lemma append_assoc (a b c : string) : (a ++ b) ++ c = a ++ b ++ c.
Proof.
  induction a as [|d a IH]; simpl; [reflexivity|]. now rewrite IH.
Qed.

(** X12.  The usual HTTPS clone URL: without an [@] and with no [.git]
    other than the suffix, [https://rest.git] is rewritten to
    [https://rest]. *)
Theorem https_clone_url (rest : string) :
  JsString.contains "@" rest = false ->
  JsString.includes rest ".git" = false ->
  normalizeUrl ("https://" ++ rest ++ ".git") = "https://" ++ rest.
Proof.
  intros Hat Hgit. unfold normalizeUrl.
  change (JsString.startsWith ("https://" ++ rest ++ ".git") "git@") with false.
  change (JsString.startsWith ("https://" ++ rest ++ ".git") "ssh://") with false.
  simpl orb. cbv iota.
  rewrite stripCredentials_no_at.
  - rewrite <- (append_assoc "https://" rest ".git").
    apply removeDotGit_suffix.
    simpl append. rewrite !includes_cons, !prefix_cons. simpl. exact Hgit.
  - simpl. induction rest as [|c rest IH]; [reflexivity|].
    simpl in Hat. apply orb_false_iff in Hat. destruct Hat as [Hc Hr].
    simpl. rewrite Hc. simpl. apply IH; [exact Hr|].
    rewrite includes_cons in Hgit. apply orb_false_iff in Hgit. tauto.
Qed.

(** X13.  The usual SSH clone URL: [git@host:path.git], with no [:] in the
    host, no [ssh://] in the URL and no [.git] other than the suffix, is
    rewritten to [https://host/path]. *)
Theorem scp_style_url (host path : string) :
  JsString.contains ":" host = false ->
  JsString.includes ("git@" ++ host ++ ":" ++ path ++ ".git") "ssh://" = false ->
  JsString.includes (host ++ "/" ++ path) ".git" = false ->
  normalizeUrl ("git@" ++ host ++ ":" ++ path ++ ".git") = "https://" ++ host ++ "/" ++ path.
Proof.
  intros Hcolon Hssh Hgit. unfold normalizeUrl.
  assert (Hp : JsString.startsWith ("git@" ++ host ++ ":" ++ path ++ ".git") "git@"
               = true).
  { unfold JsString.startsWith. simpl append.
    rewrite !prefix_cons, prefix_empty. reflexivity. }
  rewrite Hp. simpl orb. cbv iota.
  rewrite (replace_absent "ssh://" "" _ Hssh).
  assert (H1 : JsString.replace ":" "/" ("git@" ++ host ++ ":" ++ path ++ ".git")
               = "git@" ++ host ++ "/" ++ path ++ ".git").
  { simpl append. rewrite !replace_cons, !prefix_cons. simpl.
    now rewrite (replace_first_char ":" "/" host (path ++ ".git") Hcolon). }
  rewrite H1.
  assert (H2 : JsString.replace "git@" "https://"
                 ("git@" ++ host ++ "/" ++ path ++ ".git")
               = "https://" ++ host ++ "/" ++ path ++ ".git").
  { simpl append. rewrite replace_cons, !prefix_cons, prefix_empty. reflexivity. }
  rewrite H2.
  replace ("https://" ++ host ++ "/" ++ path ++ ".git")
    with (("https://" ++ host ++ "/" ++ path) ++ ".git").
  - apply removeDotGit_suffix.
    simpl append. rewrite !includes_cons, !prefix_cons. simpl. exact Hgit.
  - rewrite !append_assoc. reflexivity.
Qed.

End UrlForms.

(** ** The two tables: pattern keys, the language table, the empty key *)

Section Tables.

Context {imports : Imports}.

Lemma splitLast_none (c : ascii) (s : string) :
  JsString.contains c s = false -> JsString.splitLast c s = None.
Proof.
  induction s as [|d s IH]; simpl; [reflexivity|].
  intros H. apply orb_false_iff in H. destruct H as [Hd Hs].
  now rewrite (IH Hs), Hd.
Qed.

Lemma splitLast_app (c : ascii) (before rest : string) :
  JsString.contains c rest = false ->
  JsString.splitLast c (before ++ String c rest) = Some (before, rest).
Proof.
  intros H. induction before as [|d before IH]; simpl.
  - now rewrite (splitLast_none c rest H), Ascii.eqb_refl.
  - now rewrite IH.
Qed.

Lemma splitLast_some (c : ascii) (s before rest : string) :
  JsString.splitLast c s = Some (before, rest) -> s = before ++ String c rest.
Proof.
  revert before rest. induction s as [|d s IH]; simpl; [discriminate|].
  intros before rest.
  destruct (JsString.splitLast c s) as [[a b]|].
  - intros H. injection H as <- <-. now rewrite (IH a b eq_refl).
  - destruct (Ascii.eqb d c) eqn:E; [|discriminate].
    intros H. injection H as <- <-. apply Ascii.eqb_eq in E. now subst d.
Qed.

Lemma keyFlags_no_slash (flags : string) :
  JsString.all isKeyFlag flags = true -> JsString.contains "/" flags = false.
Proof.
  induction flags as [|c flags IH]; simpl; [reflexivity|].
  intros H. apply andb_true_iff in H. destruct H as [Hc Hf].
  rewrite (IH Hf), orb_false_r.
  unfold isKeyFlag in Hc.
  destruct (Ascii.eqb c "/") eqn:E; [|reflexivity].
  apply Ascii.eqb_eq in E. subst c. discriminate.
Qed.

Lemma regexKey_slash (rest : string) :
  regexKey (String "/" rest)
  = match JsString.splitLast "/" rest with
    | Some (source, flags) =>
        if JsString.truthy flags
           && JsString.all isKeyFlag flags
           && JsString.all (fun c => negb (JsString.isLineTerminator c)) source
        then Some (source, flags)
        else None
    | None => None
    end.
Proof. reflexivity. Qed.

(** X14.  A key is read as a pattern exactly when it is [/source/flags]
    with at least one flag, every flag one of [m], [g], [i], [y], and no
    line terminator in the source, and then it is read back as that source
    and those flags; a key that ends with its second [/], without a flag, is
    not a pattern. *)
Theorem regexKey_round_trip :
  (forall source flags,
      flags <> "" ->
      JsString.all isKeyFlag flags = true ->
      JsString.all (fun c => negb (JsString.isLineTerminator c)) source = true ->
      regexKey ("/" ++ source ++ "/" ++ flags) = Some (source, flags))
  /\ (forall key source flags,
         regexKey key = Some (source, flags) ->
         key = "/" ++ source ++ "/" ++ flags
         /\ flags <> ""
         /\ JsString.all isKeyFlag flags = true
         /\ JsString.all (fun c => negb (JsString.isLineTerminator c)) source = true)
  /\ (forall source, regexKey ("/" ++ source ++ "/") = None).
Proof.
  split; [|split].
  - intros source flags Hne Hflags Hsource.
    change ("/" ++ source ++ "/" ++ flags) with (String "/" (source ++ String "/" flags)).
    rewrite regexKey_slash.
    rewrite (splitLast_app "/" source flags (keyFlags_no_slash flags Hflags)).
    apply truthy_true in Hne. now rewrite Hne, Hflags, Hsource.
  - intros key source flags. unfold regexKey.
    destruct key as [|c rest]; [discriminate|].
    destruct (Ascii.eqb c "/") eqn:Ec; [|discriminate].
    destruct (JsString.splitLast "/" rest) as [[a b]|] eqn:Es; [|discriminate].
    destruct (JsString.truthy b) eqn:Ht; [|discriminate].
    destruct (JsString.all isKeyFlag b) eqn:Hf; [|discriminate].
    destruct (JsString.all _ a) eqn:Ha; [|discriminate].
    simpl. intros H. injection H as <- <-.
    apply Ascii.eqb_eq in Ec. subst c.
    apply splitLast_some in Es. subst rest.
    apply truthy_true in Ht. repeat split; assumption.
  - intros source.
    change ("/" ++ source ++ "/") with (String "/" (source ++ String "/" "")).
    rewrite regexKey_slash.
    now rewrite (splitLast_app "/" source "" eq_refl).
Qed.



(** X16.  An empty key matches every filename but counts as no key: when it
    is the first key that matches, the icon comes from the language table
    (or is ["text"]), and neither its own entry nor any key after it is
    used. *)
Theorem empty_key_hides_the_table (w : World) (document : TextDocument)
    (p : Process) (descriptor : IconDescriptor)
    (before rest : list (string * IconDescriptor)) :
  fst (getRepositoryIconAsync w p) = Resolved None ->
  KNOWN_EXTENSIONS = (before ++ ("", descriptor) :: rest)%list ->
  (forall key, In key (List.map fst before) ->
               keyMatches (basename (fileName document)) key = Resolved false) ->
  fst (resolveFileIconAsync w document p)
  = Resolved (iconOf (option_map image (findLanguage (languageId document)))).
Proof.
  intros Hrepo Htable Hbefore.
  rewrite resolveFileIconAsync_result, Hrepo. unfold staticFileIcon.
  rewrite Htable, List.map_app. simpl List.map.
  assert (Hm : keyMatches (basename (fileName document)) "" = Resolved true).
  { unfold keyMatches, JsString.endsWith. simpl.
    rewrite Nat.sub_0_r.
    assert (Hd : forall s, JsString.drop (String.length s) s = "").
    { induction s as [|c s IH]; [reflexivity | exact IH]. }
    now rewrite Hd. }
  rewrite (findKey_first _ _ _ _ Hbefore Hm). simpl.
  now destruct (findLanguage (languageId document)).
Qed.

End Tables.

(** ** The reference and the remote that the resolver reads *)

Section Reference.

Context {imports : Imports}.

Variables (w : World) (p : Process) (api : API.t) (repo : Repository.t).

Hypothesis git_loaded : git p = Loaded api.
Hypothesis repo_selected : selectRepository w api = Some repo.

(** X17.  Only the first remote is read: when it has no fetch URL the
    resolver returns [undefined] and runs no command, whatever fetch URLs
    the other remotes have. *)
Theorem first_remote_only (first : Remote) (others : list Remote) :
  remotes (Repository.state repo) = first :: others ->
  fetchUrl first = None ->
  getRepositoryIconAsync w p = (Resolved None, p).
Proof.
  intros Hr Hf. rewrite (getRepositoryIconAsync_loaded w p api git_loaded).
  destruct (_ || _); [reflexivity|].
  rewrite repo_selected.
  assert (Hu : fetchUrlOf repo = None) by (unfold fetchUrlOf; now rewrite Hr).
  rewrite Hu. now destruct (branchNameOf repo).
Qed.

(** X18.  An empty name of [HEAD] is not replaced by the commit: [??] falls
    back for a missing name only, so the resolver returns [undefined] and
    runs no command even when [HEAD] has a commit. *)
Theorem empty_head_name_is_absent (head : Ref) :
  HEAD (Repository.state repo) = Some head ->
  name head = Some "" ->
  getRepositoryIconAsync w p = (Resolved None, p).
Proof.
  intros Hh Hn. rewrite (getRepositoryIconAsync_loaded w p api git_loaded).
  destruct (_ || _); [reflexivity|].
  rewrite repo_selected.
  assert (Hb : branchNameOf repo = Some "")
    by (unfold branchNameOf; now rewrite Hh, Hn).
  rewrite Hb. now destruct (fetchUrlOf repo).
Qed.

End Reference.

Section DetachedHead.

Context {imports : Imports}.

Variables (w : World) (p : Process) (api : API.t) (repo : Repository.t).
Variables (head : Ref) (hash url file : string).

(** X19.  On a detached [HEAD], which has a commit and no name, the commit
    stands where the branch name would: the URL of the selected file is
    [raw URL/commit/file]. *)
Theorem detached_head_uses_commit :
  git p = Loaded api ->
  API.state api = "initialized" ->
  workspaceFolders w <> None ->
  selectRepository w api = Some repo ->
  HEAD (Repository.state repo) = Some head ->
  name head = None ->
  commit head = Some hash ->
  hash <> "" ->
  fetchUrlOf repo = Some url ->
  url <> "" ->
  error (exec w "git ls-files" (path (Repository.rootUri repo))) = None ->
  standardError (exec w "git ls-files" (path (Repository.rootUri repo))) = "" ->
  (forall glob, In glob (bigImageFilePaths w) -> GlobToRegExp glob <> None) ->
  List.find (matchedBy (bigImageFilePaths w))
    (trackedFilesOf
       (standardOutput (exec w "git ls-files" (path (Repository.rootUri repo)))))
  = Some file ->
  fst (getRepositoryIconAsync w p)
  = Resolved (Some (JsString.replace "https://" "https://raw." (normalizeUrl url)
                    ++ "/" ++ hash ++ "/" ++ file)).
Proof.
  intros Hg Hi Hw Hs Hh Hn Hc Hne Hu Hune He Hq Hglobs Hfind.
  assert (Hb : branchNameOf repo = Some hash)
    by (unfold branchNameOf; now rewrite Hh, Hn).
  rewrite (resolves_to_first_match w p api repo hash url
             (standardOutput (exec w "git ls-files" (path (Repository.rootUri repo)))));
    try assumption; try reflexivity.
  now rewrite Hfind.
Qed.

End DetachedHead.

(** ** Calls of the resolver one after the other *)

Section Repeated.

Context {imports : Imports}.

(** The result and the effects of the resolver depend on the world and on
    [git] alone. *)
Lemma getRepositoryIconAsync_by_git (w : World) (p q : Process) :
  git p = git q ->
  fst (getRepositoryIconAsync w p) = fst (getRepositoryIconAsync w q)
  /\ exists effects,
       snd (getRepositoryIconAsync w p)
       = {| git := git p; journal := (journal p ++ effects)%list |}
       /\ snd (getRepositoryIconAsync w q)
          = {| git := git q; journal := (journal q ++ effects)%list |}.
Proof.
  intros Hpq. destruct p as [g jp], q as [g' jq]. simpl in Hpq. subst g'.
  unfold getRepositoryIconAsync, execute. async_unfold. simpl.
  repeat match goal with
         | |- context [match ?x with _ => _ end] => destruct x eqn:?
         | |- context [if ?x then _ else _] => destruct x eqn:?
         end; simpl;
    (split; [reflexivity|]);
    first [ exists []; rewrite !List.app_nil_r; split; reflexivity
          | eexists; split; reflexivity ].
Qed.

(** X20.  The listing is not kept between calls: after a call that
    returned a URL, a second call in the same world returns the same URL and
    runs [git ls-files] again. *)
Theorem listing_is_not_cached (w : World) (p : Process) (u : string) :
  fst (getRepositoryIconAsync w p) = Resolved (Some u) ->
  exists cwd,
    fst (getRepositoryIconAsync w (snd (getRepositoryIconAsync w p)))
    = Resolved (Some u)
    /\ journal (snd (getRepositoryIconAsync w (snd (getRepositoryIconAsync w p))))
       = (journal p ++ [Exec "git ls-files" cwd; Exec "git ls-files" cwd])%list.
Proof.
  intros H.
  destruct (getRepositoryIconAsync_some w p u H)
    as (api & repo & branchName & url & output & file
        & _ & _ & _ & _ & _ & _ & _ & _ & _ & _ & _ & _ & Hj).
  assert (Hg : git (snd (getRepositoryIconAsync w p)) = git p) by now rewrite Hj.
  destruct (getRepositoryIconAsync_by_git w _ _ Hg) as [Hr [effects [H2 H1]]].
  assert (He : effects = [Exec "git ls-files" (path (Repository.rootUri repo))]).
  { rewrite Hj in H1. injection H1 as H1.
    now apply List.app_inv_head in H1. }
  exists (path (Repository.rootUri repo)).
  split; [now rewrite Hr|].
  rewrite H2, Hj, He. simpl. now rewrite <- List.app_assoc.
Qed.

End Repeated.

(** ** Pattern keys that do not compile *)

Section BadPattern.

Context {imports : Imports}.

(** X21.  A pattern key that [RegExp] refuses makes [resolveFileIconAsync]
    reject as soon as the lookup reaches it: with no repository icon and no
    match before that key, the promise rejects with the exception, whatever
    later keys and the language table would give, unless the filename ends
    with the text of the key itself. *)
Theorem bad_pattern_key_rejects (w : World) (document : TextDocument) (p : Process)
    (key source flags : string) (descriptor : IconDescriptor)
    (before rest : list (string * IconDescriptor)) :
  fst (getRepositoryIconAsync w p) = Resolved None ->
  KNOWN_EXTENSIONS = (before ++ (key, descriptor) :: rest)%list ->
  (forall k, In k (List.map fst before) ->
             keyMatches (basename (fileName document)) k = Resolved false) ->
  JsString.endsWith (basename (fileName document)) key = false ->
  regexKey key = Some (source, flags) ->
  RegExp source flags = None ->
  fst (resolveFileIconAsync w document p) = Rejected (Thrown "SyntaxError").
Proof.
  intros Hrepo Htable Hbefore Hends Hkey Hbad.
  rewrite resolveFileIconAsync_result, Hrepo. unfold staticFileIcon.
  rewrite Htable, List.map_app. simpl List.map.
  assert (Hm : keyMatches (basename (fileName document)) key
               = Rejected (Thrown "SyntaxError")).
  { unfold keyMatches. now rewrite Hends, Hkey, Hbad. }
  assert (Hf : findKey (basename (fileName document))
                 (List.map fst before ++ key :: List.map fst rest)%list
               = Rejected (Thrown "SyntaxError")).
  { clear Htable. induction before as [|[k d] before IH]; simpl.
    - now rewrite Hm.
    - rewrite (Hbefore k) by (simpl; now left).
      apply IH. intros k' Hk'. apply Hbefore. simpl. now right. }
  now rewrite Hf.
Qed.

End BadPattern.

(** ** The further properties on the example worlds *)

Module MoreWitnesses.

Import Examples.


(** X2: the extension is missing at the first call and there at the second. *)
Lemma missing_extension_is_retried_witness :
  fst (getGitCalls [world "" "" [] None;
                    world "" "" [] (Some (gitExtension (Some sshUrl)))] fresh)
  = [Resolved Undefined; Resolved (Loaded (api (Some sshUrl)))].
Proof.
  exact (missing_extension_is_retried
           (world "" "" [] None)
           (world "" "" [] (Some (gitExtension (Some sshUrl)))) fresh
           (gitExtension (Some sshUrl)) (api (Some sshUrl))
           eq_refl eq_refl eq_refl (or_intror eq_refl) eq_refl).
Defined.

(** X3: the activation is rejected. *)
Lemma getGit_failure_is_logged_witness :
  fst (getGit (world "" "" [] (Some brokenExtension)) fresh) = Resolved Null
  /\ exists effects,
       journal (snd (getGit (world "" "" [] (Some brokenExtension)) fresh))
       = ([] ++ effects
          ++ [Log Error ("Failed to load git extension, is git installed?; "
                         ++ "Error: git not found")])%list
       /\ forall level message, In (Log level message) effects -> level <> Error.
Proof.
  exact (getGit_failure_is_logged (world "" "" [] (Some brokenExtension)) fresh
           brokenExtension (Thrown "Error: git not found")
           eq_refl eq_refl (or_introl (conj eq_refl eq_refl))).
Defined.

(** X4: the journal of a call that loads the extension. *)
Lemma getGit_calls_witness :
  exists effects,
    journal (snd (getGit (world "" "" [] (Some (gitExtension (Some sshUrl)))) fresh))
    = ([] ++ effects)%list
    /\ (forall command cwd, ~ In (Exec command cwd) effects)
    /\ (forall id, In (GetExtension id) effects -> id = "vscode.git")
    /\ (forall e,
           getExtension (world "" "" [] (Some (gitExtension (Some sshUrl))))
             "vscode.git" = Some e ->
           isActive e = true -> ~ In Activate effects).
Proof.
  exact (getGit_calls (world "" "" [] (Some (gitExtension (Some sshUrl)))) fresh).
Defined.

(** X5: the URL of [logo.png] comes with one [git ls-files] at the root. *)
Lemma icon_url_sound_witness :
  journal (snd (getRepositoryIconAsync logoWorld (loaded sshUrl)))
  = [Exec "git ls-files" root].
Proof.
  destruct (@icon_url_sound imports logoWorld (loaded sshUrl) logoUrl
              ltac:(vm_compute; reflexivity))
    as (a & r & b & u & Hg & _ & _ & Hin & _ & _ & _ & _ & _ & _ & _ & _ & Hj).
  injection Hg as <-. destruct Hin as [<- | []]. exact Hj.
Defined.

(** X6: the same repository with no glob configured. *)
Lemma no_glob_no_icon_witness :
  fst (getRepositoryIconAsync (world ("logo.png" ++ newline) "" [] None)
         (loaded sshUrl))
  <> Resolved (Some logoUrl).
Proof.
  exact (@no_glob_no_icon imports (world ("logo.png" ++ newline) "" [] None) (loaded sshUrl)
           eq_refl logoUrl).
Defined.

(** X7: [index.ts] gets the repository icon. *)
Lemma repository_icon_overrides_witness :
  fst (resolveFileIconAsync logoWorld indexTs (loaded sshUrl)) = Resolved logoUrl.
Proof.
  exact (@repository_icon_overrides imports logoWorld (loaded sshUrl) logoUrl
           ltac:(vm_compute; reflexivity) indexTs).
Defined.

(** X8: the command fails, and the command warns. *)
Lemma command_failure_rejects_witness :
  fst (resolveFileIconAsync (failingWorld "fatal: not a git repository") indexTs
         (loaded sshUrl))
  = Rejected NoValue
  /\ fst (resolveFileIconAsync (world "logo.png" "warning: slow" ["logo.*"] None)
            indexTs (loaded sshUrl))
     = Rejected (ErrorStream "warning: slow").
Proof.
  split.
  - refine (proj2 (proj1 (command_failure_rejects
                            (failingWorld "fatal: not a git repository")
                            (loaded sshUrl) (api (Some sshUrl))
                            (repository (Some sshUrl)) "main" sshUrl
                            eq_refl eq_refl _ eq_refl eq_refl _ eq_refl _ indexTs) _));
      discriminate.
  - refine (proj2 (proj2 (command_failure_rejects
                            (world "logo.png" "warning: slow" ["logo.*"] None)
                            (loaded sshUrl) (api (Some sshUrl))
                            (repository (Some sshUrl)) "main" sshUrl
                            eq_refl eq_refl _ eq_refl eq_refl _ eq_refl _ indexTs)
                     eq_refl _));
      discriminate.
Defined.

(** X9: a glob with an unclosed bracket after a glob that accepts a file. *)
Lemma bad_glob_rejects_witness :
  matchedBy ["logo.*"] "logo.png" = true
  /\ fst (getRepositoryIconAsync (world "logo.png" "" ["logo.*"; "icon.["] None)
            (loaded sshUrl))
     = Rejected (Thrown "SyntaxError").
Proof.
  split; [reflexivity|].
  refine (bad_glob_rejects (world "logo.png" "" ["logo.*"; "icon.["] None)
            (loaded sshUrl) (api (Some sshUrl)) (repository (Some sshUrl))
            "main" sshUrl eq_refl eq_refl _ eq_refl eq_refl _ eq_refl _
            "icon.[" eq_refl eq_refl _ eq_refl);
    try discriminate.
  right. now left.
Defined.

(** X10: [b/logo.png] and [a/logo.png] share the least depth; the first of
    the listing is selected. *)
Lemma equal_depth_keeps_listing_order_witness :
  fst (getRepositoryIconAsync (world threeLogos "" ["**/logo.png"] None)
         (loaded sshUrl))
  = Resolved (Some "https://raw.host.com/org/repo/main/b/logo.png").
Proof.
  refine (equal_depth_keeps_listing_order
            (world threeLogos "" ["**/logo.png"] None) (loaded sshUrl)
            (api (Some sshUrl)) (repository (Some sshUrl)) "main" sshUrl threeLogos
            eq_refl eq_refl _ eq_refl eq_refl _ eq_refl _ eq_refl eq_refl eq_refl _
            "b/logo.png" ["docs/img/logo.png"] ["a/logo.png"; "README.md"]
            eq_refl eq_refl _ _);
    try discriminate.
  - intros glob [<- | []]. vm_compute. discriminate.
  - intros other Hin Hm. vm_compute in Hin.
    destruct Hin as [<- | [<- | [<- | [<- | []]]]];
      try (vm_compute; lia); vm_compute in Hm; discriminate.
  - intros other [<- | []] _. vm_compute. discriminate.
Defined.

(** X11: [git ls-files] prints an empty line and the glob [*] accepts the
    empty path. *)
Lemma empty_listing_holds_empty_path_witness :
  fst (getRepositoryIconAsync (world newline "" ["*"] None) (loaded sshUrl))
  = Resolved (Some "https://raw.host.com/org/repo/main/").
Proof.
  refine (proj2 (empty_listing_holds_empty_path
                   (world newline "" ["*"] None) (loaded sshUrl)
                   (api (Some sshUrl)) (repository (Some sshUrl)) "main" sshUrl newline
                   eq_refl eq_refl _ eq_refl eq_refl _ eq_refl _
                   eq_refl eq_refl eq_refl _ eq_refl));
    try discriminate.
  intros glob [<- | []]. vm_compute. discriminate.
Defined.

(** X12 on [https://host.com/org/repo.git]. *)
Lemma https_clone_url_witness :
  normalizeUrl "https://host.com/org/repo.git" = "https://host.com/org/repo".
Proof.
  exact (https_clone_url "host.com/org/repo" eq_refl eq_refl).
Defined.

(** X13 on [git@host.com:org/repo.git]. *)
Lemma scp_style_url_witness :
  normalizeUrl "git@host.com:org/repo.git" = "https://host.com/org/repo".
Proof.
  exact (scp_style_url "host.com" "org/repo" eq_refl eq_refl eq_refl).
Defined.

(** X14 on the key [/Dockerfile/g] and on [/Dockerfile/]. *)
Lemma regexKey_round_trip_witness :
  regexKey "/Dockerfile/g" = Some ("Dockerfile", "g")
  /\ regexKey "/Dockerfile/" = None.
Proof.
  split.
  - refine (proj1 regexKey_round_trip "Dockerfile" "g" _ eq_refl eq_refl).
    discriminate.
  - exact (proj2 (proj2 regexKey_round_trip) "Dockerfile").
Defined.


(** X16: [index.ts] under a table with an empty key before [.ts]. *)
Lemma empty_key_hides_the_table_witness :
  fst (@resolveFileIconAsync importsWithEmptyKey (world "" "" [] None) indexTs fresh)
  = Resolved "typescript".
Proof.
  refine (@empty_key_hides_the_table importsWithEmptyKey
            (world "" "" [] None) indexTs fresh (IconKey "file")
            [ (".md", IconKey "markdown") ] [ (".ts", IconRecord "ts") ]
            eq_refl eq_refl _).
  intros key [<- | []]. reflexivity.
Defined.

(** X17: the first remote has no fetch URL, the second has one. *)
Lemma first_remote_only_witness :
  getRepositoryIconAsync logoWorld
    (loadedWith (Some {| name := Some "main"; commit := None |})
       [ {| fetchUrl := None |}; {| fetchUrl := Some sshUrl |} ])
  = (Resolved None,
     loadedWith (Some {| name := Some "main"; commit := None |})
       [ {| fetchUrl := None |}; {| fetchUrl := Some sshUrl |} ]).
Proof.
  exact (@first_remote_only imports logoWorld
           (loadedWith (Some {| name := Some "main"; commit := None |})
              [ {| fetchUrl := None |}; {| fetchUrl := Some sshUrl |} ])
           (apiWith (Some {| name := Some "main"; commit := None |})
              [ {| fetchUrl := None |}; {| fetchUrl := Some sshUrl |} ])
           (repositoryWith (Some {| name := Some "main"; commit := None |})
              [ {| fetchUrl := None |}; {| fetchUrl := Some sshUrl |} ])
           eq_refl eq_refl
           {| fetchUrl := None |} [ {| fetchUrl := Some sshUrl |} ]
           eq_refl eq_refl).
Defined.

(** X18: [HEAD] has an empty name and a commit. *)
Lemma empty_head_name_is_absent_witness :
  getRepositoryIconAsync logoWorld
    (loadedWith (Some {| name := Some ""; commit := Some "0a1b2c3" |})
       [ {| fetchUrl := Some sshUrl |} ])
  = (Resolved None,
     loadedWith (Some {| name := Some ""; commit := Some "0a1b2c3" |})
       [ {| fetchUrl := Some sshUrl |} ]).
Proof.
  exact (@empty_head_name_is_absent imports logoWorld
           (loadedWith (Some {| name := Some ""; commit := Some "0a1b2c3" |})
              [ {| fetchUrl := Some sshUrl |} ])
           (apiWith (Some {| name := Some ""; commit := Some "0a1b2c3" |})
              [ {| fetchUrl := Some sshUrl |} ])
           (repositoryWith (Some {| name := Some ""; commit := Some "0a1b2c3" |})
              [ {| fetchUrl := Some sshUrl |} ])
           eq_refl eq_refl
           {| name := Some ""; commit := Some "0a1b2c3" |} eq_refl eq_refl).
Defined.

(** X19: [HEAD] has a commit and no name. *)
Lemma detached_head_uses_commit_witness :
  fst (getRepositoryIconAsync logoWorld
         (loadedWith (Some {| name := None; commit := Some "0a1b2c3" |})
            [ {| fetchUrl := Some sshUrl |} ]))
  = Resolved (Some "https://raw.host.com/org/repo/0a1b2c3/logo.png").
Proof.
  refine (@detached_head_uses_commit imports logoWorld
            (loadedWith (Some {| name := None; commit := Some "0a1b2c3" |})
               [ {| fetchUrl := Some sshUrl |} ])
            (apiWith (Some {| name := None; commit := Some "0a1b2c3" |})
               [ {| fetchUrl := Some sshUrl |} ])
            (repositoryWith (Some {| name := None; commit := Some "0a1b2c3" |})
               [ {| fetchUrl := Some sshUrl |} ])
            {| name := None; commit := Some "0a1b2c3" |}
            "0a1b2c3" sshUrl "logo.png"
            eq_refl eq_refl _ eq_refl eq_refl eq_refl eq_refl _ eq_refl _
            eq_refl eq_refl _ eq_refl);
    try discriminate.
  intros glob [<- | []]. vm_compute. discriminate.
Defined.

(** X20: two calls, two commands. *)
Lemma listing_is_not_cached_witness :
  exists cwd,
    fst (getRepositoryIconAsync logoWorld
           (snd (getRepositoryIconAsync logoWorld (loaded sshUrl))))
    = Resolved (Some logoUrl)
    /\ journal (snd (getRepositoryIconAsync logoWorld
                       (snd (getRepositoryIconAsync logoWorld (loaded sshUrl)))))
       = ([] ++ [Exec "git ls-files" cwd; Exec "git ls-files" cwd])%list.
Proof.
  exact (@listing_is_not_cached imports logoWorld (loaded sshUrl) logoUrl
           ltac:(vm_compute; reflexivity)).
Defined.

(** X21: [index.ts] under a table whose first key is a pattern that does
    not compile. *)
Lemma bad_pattern_key_rejects_witness :
  fst (@resolveFileIconAsync importsWithBadPattern (world "" "" [] None) indexTs fresh)
  = Rejected (Thrown "SyntaxError").
Proof.
  refine (@bad_pattern_key_rejects importsWithBadPattern
            (world "" "" [] None) indexTs fresh
            "/(test/g" "(test" "g" (IconRecord "test")
            [] [ (".ts", IconRecord "ts") ]
            eq_refl eq_refl _ eq_refl eq_refl eq_refl).
  intros k [].
Defined.

End MoreWitnesses.
